(** * A shallow embedding of the nnSeq2Seq inference code

    Source: [nnseq2seq/inference/predict_from_raw_data.py] (class
    [nnSeq2SeqPredictor]) and [nnseq2seq/networks/seq2seq/model3d/encoder.py]
    (class [ImageEncoder]).

    Tensors and network calls are kept abstract (section variables); what is
    embedded is the control flow, the bookkeeping and the Python exceptions
    of the predictor. *)

From Stdlib Require Import Ascii String List Arith Lia ZArith Bool Permutation.
From Stdlib Require Import Reals Lra DecimalString.
From Stdlib Require DecimalNat.
Import ListNotations.

(** ** Python exceptions and a small error monad *)

Module Py.

Inductive exn : Type :=
| TypeError                (* e.g. [os.path.join(None, ...)], missing argument *)
| AttributeError           (* reading an attribute that was never set *)
| IndexError               (* list index out of range *)
| ValueError               (* e.g. [max([])] *)
| AssertionError
| UnboundLocalError        (* reading / deleting a local never assigned *)
| RuntimeError (msg : string).

Inductive result (A : Type) : Type :=
| Ok (a : A)
| Err (e : exn).
Arguments Ok {A} a.
Arguments Err {A} e.

Definition bind {A B} (m : result A) (k : A -> result B) : result B :=
  match m with
  | Ok a => k a
  | Err e => Err e
  end.

Declare Scope py_scope.
Notation "x <- m ;; k" := (bind m (fun x => k))
  (at level 61, m at next level, right associativity) : py_scope.
Notation "m ;;; k" := (bind m (fun _ => k))
  (at level 61, right associativity) : py_scope.
Open Scope py_scope.

Definition assert (b : bool) : result unit :=
  if b then Ok tt else Err AssertionError.

(** [isinstance(e, RuntimeError)] *)
Definition is_runtime_error (e : exn) : bool :=
  match e with RuntimeError _ => true | _ => false end.

(** Python [max] over a list of ints: [ValueError] on an empty list. *)
Definition py_max (l : list nat) : result nat :=
  match l with
  | [] => Err ValueError
  | x :: t => Ok (fold_left Nat.max t x)
  end.

(** [[f(x) for x in l]] where [f] may raise. *)
Fixpoint mapM {A B} (f : A -> result B) (l : list A) : result (list B) :=
  match l with
  | [] => Ok []
  | x :: t => y <- f x ;; ys <- mapM f t ;; Ok (y :: ys)
  end.

(** [l[i]] for a non-negative index. *)
Definition py_index {A} (l : list A) (i : nat) : result A :=
  match nth_error l i with
  | Some a => Ok a
  | None => Err IndexError
  end.

End Py.
Import Py.
Open Scope py_scope.

(** ** [_internal_maybe_mirror_and_predict] *)

Module Mirror.

(** [itertools.combinations(l, k)], in the order itertools yields them. *)
Fixpoint combinations {A} (k : nat) (l : list A) : list (list A) :=
  match k, l with
  | 0, _ => [[]]
  | S _, [] => []
  | S k', x :: t => map (cons x) (combinations k' t) ++ combinations k t
  end.

(** [[c for i in range(len(mirror_axes))
       for c in itertools.combinations([m + 2 for m in mirror_axes], i + 1)]] *)
Definition axes_combinations (mirror_axes : list nat) : list (list nat) :=
  flat_map (fun i => combinations (i + 1) (map (fun m => m + 2) mirror_axes))
           (seq 0 (length mirror_axes)).

(** All sub-sequences of a list (the power set, by positions). *)
Fixpoint subseqs {A} (l : list A) : list (list A) :=
  match l with
  | [] => [[]]
  | x :: t => map (cons x) (subseqs t) ++ subseqs t
  end.

Section MirrorPredict.

(** [T] stands for a tensor; [tadd] is [+=], [tdiv t n] is [t /= n] and
    [flip axes t] is [torch.flip(t, axes)]. *)
Variable T : Type.
Variable tadd : T -> T -> T.
Variable tdiv : T -> nat -> T.
Variable flip : list nat -> T -> T.

(** The forward logic that is rerun for every flip: the network input
    ([x] when [properties is None], the per-channel volume [tsf_data] in the
    fusion path) is mapped to (translation, mask, latent). *)
Variable fwd : T -> T * T * T.

Definition add3 (a b : T * T * T) : T * T * T :=
  let '(p, m, l) := a in
  let '(p', m', l') := b in
  (tadd p p', tadd m m', tadd l l').

Definition div3 (a : T * T * T) (n : nat) : T * T * T :=
  let '(p, m, l) := a in (tdiv p n, tdiv m n, tdiv l n).

Definition flip3 (axes : list nat) (a : T * T * T) : T * T * T :=
  let '(p, m, l) := a in (flip axes p, flip axes m, flip axes l).

(** The method, returning the three outputs together with the log of the
    forward passes it ran (the flip axes of each pass, [[]] for the first,
    unflipped one).  [mirror_axes] is [allowed_mirroring_axes if
    use_mirroring else None]; [ndim] is [x.ndim]. *)
Definition maybe_mirror_and_predict (mirror_axes : option (list nat))
    (ndim : nat) (inp : T) : result ((T * T * T) * list (list nat)) :=
  let first := fwd inp in
  match mirror_axes with
  | None => Ok (first, [[]])
  | Some ma =>
      mx <- py_max ma ;;
      assert (Z.leb (Z.of_nat mx) (Z.of_nat ndim - 3)) ;;;
      let combos := axes_combinations ma in
      let acc := fold_left
                   (fun acc axes => add3 acc (flip3 axes (fwd (flip axes inp))))
                   combos first in
      Ok (div3 acc (length combos + 1), [] :: combos)
  end.

End MirrorPredict.

End Mirror.

(** ** The fused source / target / segmentation codes *)

Module Codes.

(** [F.one_hot(torch.tensor([t]), num_classes=n)] (one row); torch raises
    when the class is not below [num_classes]. *)
Definition one_hot (t n : nat) : result (list Z) :=
  if t <? n then Ok (map (fun i => if i =? t then 1%Z else 0%Z) (seq 0 n))
  else Err (RuntimeError "Class values must be smaller than num_classes.").

(** [np.array([1 if i in properties['available_channel'] else 0
               for i in range(properties['num_channel'])])] *)
Definition tsf_src_code (num_channel : nat) (available_channel : list nat) : list Z :=
  map (fun i => if existsb (Nat.eqb i) available_channel then 1%Z else 0%Z)
      (seq 0 num_channel).

(** [torch.cat([tsf_src_code, target_code, zeros((1,1))], dim=1)] *)
Definition tsf_tgt_code (src target_code : list Z) : list Z :=
  src ++ target_code ++ [0%Z].

(** [torch.cat([tsf_src_code, zeros_like(target_code), ones((1,1))], dim=1)] *)
Definition tsf_seg_code (src target_code : list Z) : list Z :=
  src ++ map (fun _ => 0%Z) target_code ++ [1%Z].

(** The codes built in [predict_from_files] for the task-specific
    contribution report. *)
Definition files_tgt_code (num_channel tgt_id : nat) : list Z :=
  map (fun i => if negb (i =? tgt_id) then 1%Z else 0%Z) (seq 0 num_channel)
  ++ map (fun i => if i =? tgt_id then 1%Z else 0%Z) (seq 0 num_channel) ++ [0%Z].

Definition files_seg_code (num_channel : nat) : list Z :=
  map (fun _ => 1%Z) (seq 0 num_channel) ++ map (fun _ => 0%Z) (seq 0 num_channel)
  ++ [1%Z].

(** The layout the spec gives a code of [2 * num_channel + 1] slots. *)
Definition code_layout (num_channel : nat) (is_seg : bool) (tgt : nat) (c : list Z) : Prop :=
  length c = 2 * num_channel + 1
  /\ (forall i, i < num_channel -> nth i c 0%Z = 0%Z \/ nth i c 0%Z = 1%Z)
  /\ (forall j, j < num_channel ->
        nth (num_channel + j) c 0%Z
        = if is_seg then 0%Z else if j =? tgt then 1%Z else 0%Z)
  /\ nth (2 * num_channel) c 0%Z = if is_seg then 1%Z else 0%Z.

End Codes.

(** ** [_internal_predict_sliding_window_return_logits] and
       [predict_sliding_window_return_logits] *)

Module SlidingWindow.

Inductive device : Type := Cuda | Cpu | Mps.

(** [self.device != 'cpu'] in [predict_sliding_window_return_logits]. *)
Definition device_ne_cpu (d : device) : bool :=
  match d with Cpu => false | _ => true end.

(** A value of the (half precision) accumulator after the division by
    [n_predictions]. *)
Inductive fval : Type := Fin (z : Z) | PosInf | NegInf | NaN.

(** [torch.isinf] *)
Definition is_inf (v : fval) : bool :=
  match v with PosInf | NegInf => true | _ => false end.

Definition inf_msg : string :=
  "Encountered inf in predicted array. Aborting... If this problem persists, reduce value_scaling_factor in compute_gaussian or increase the dtype of predicted_logits to fp32".

(** How the body of the [try] block (lines 746-790) ends for one value of
    [do_on_device]: either an exception is raised after [calls] completed
    calls of [_internal_maybe_mirror_and_predict] (the line that binds the
    locals [prediction_mask] and [latent_space]), or the loop over the
    [calls] slicers finishes and [predicted_logits] holds [logits] after the
    division by [n_predictions]. *)
Inductive body_outcome : Type :=
| Raised (e : exn) (calls : nat)
| Normalised (logits : list fval) (calls : nat).

Section Predict.

Variable body : bool -> body_outcome.

(** [except Exception as e: del predicted_logits, n_predictions, prediction,
    prediction_mask, latent_space, gaussian, workon; ...; raise e].
    Only [predicted_logits], [n_predictions], [prediction], [gaussian] and
    [workon] are pre-bound (to [None], line 742); deleting the unbound local
    [prediction_mask] raises [UnboundLocalError], which replaces [e]. *)
Definition except_handler (e : exn) (calls : nat) : result (list fval) :=
  if calls =? 0 then Err UnboundLocalError else Err e.

Definition internal_predict_sliding_window (do_on_device : bool) : result (list fval) :=
  match body do_on_device with
  | Raised e calls => except_handler e calls
  | Normalised logits calls =>
      if existsb is_inf logits
      then except_handler (RuntimeError inf_msg) calls
      else Ok logits
  end.

(** [predict_sliding_window_return_logits]: the result and the list of
    [do_on_device] values the internal function was run with. *)
Definition predict_sliding_window (perform_everything_on_device : bool) (dev : device)
    : result (list fval) * list bool :=
  if perform_everything_on_device && device_ne_cpu dev then
    match internal_predict_sliding_window perform_everything_on_device with
    | Err e =>
        if is_runtime_error e
        then (internal_predict_sliding_window false, [perform_everything_on_device; false])
        else (Err e, [perform_everything_on_device])
    | Ok r => (Ok r, [perform_everything_on_device])
    end
  else (internal_predict_sliding_window perform_everything_on_device,
        [perform_everything_on_device]).

End Predict.

End SlidingWindow.

(** ** [_manage_input_and_output_lists] *)

Module ManageLists.

(** [l[start::step]] (a step of [0] raises [ValueError]). *)
Definition py_slice_step {A} (l : list A) (start step : nat) : result (list A) :=
  if step =? 0 then Err ValueError
  else Ok (map snd (filter (fun p => (start <=? fst p) && ((fst p - start) mod step =? 0))
                           (combine (seq 0 (List.length l)) l))).

Fixpoint basename_acc (s acc : string) : string :=
  match s with
  | EmptyString => acc
  | String c r =>
      if Ascii.ascii_dec c "/"%char then basename_acc r EmptyString
      else basename_acc r (acc ++ String c EmptyString)
  end.

(** [os.path.basename] *)
Definition basename (s : string) : string := basename_acc s EmptyString.

(** [s[:-n]] for [n > 0] *)
Definition drop_last (n : nat) (s : string) : string :=
  substring 0 (String.length s - n) s.

(** [os.path.join(a, b)] for a relative [b]. *)
Definition path_join (a b : string) : string :=
  if String.eqb a EmptyString then b
  else match String.get (String.length a - 1) a with
       | Some "/"%char => a ++ b
       | _ => a ++ "/" ++ b
       end.

(** [os.path.basename(i[0])[:-(len(file_ending) + 5)]] *)
Definition caseid (file_ending : string) (files : list string) : result string :=
  f <- py_index files 0 ;;
  Ok (drop_last (String.length file_ending + 5) (basename f)).

(** The type of [output_folder_or_list_of_truncated_output_files]. *)
Inductive out_arg : Type :=
| OutFolder (folder : string)
| OutList (truncated : list string)
| OutNone.

Definition resolve_outputs (out : out_arg) (caseids : list string) : option (list string) :=
  match out with
  | OutFolder f => Some (map (path_join f) caseids)
  | OutList l => Some l
  | OutNone => None
  end.

Definition seg_files (file_ending : string) (seg_folder : option string)
    (caseids : list string) : list (option string) :=
  map (fun i => match seg_folder with
                | Some f => Some (path_join f (i ++ file_ending))
                | None => None
                end) caseids.

Section Manage.

(** [isfile] on the file system the predictor sees. *)
Variable isfile : string -> bool.
Variable file_ending : string.

(** The method, for a source given as a list of lists of files. *)
Definition manage_input_and_output_lists (sources : list (list string)) (out : out_arg)
    (seg_folder : option string) (overwrite : bool) (part_id num_parts : nat)
    (save_probabilities : bool)
    : result (list (list string) * option (list string) * list (option string)) :=
  sl <- py_slice_step sources part_id num_parts ;;
  caseids <- mapM (caseid file_ending) sl ;;
  let outs := resolve_outputs out caseids in
  let segs := seg_files file_ending seg_folder caseids in
  match negb overwrite, outs with
  | true, Some o =>
      let tmp := map (fun i => isfile (i ++ file_ending)) o in
      let tmp := if save_probabilities
                 then map (fun '(i, j) => i && j)
                          (combine tmp (map (fun i => isfile (i ++ ".npz")) o))
                 else tmp in
      let not_existing := map fst (filter (fun p => negb (snd p))
                                          (combine (seq 0 (List.length tmp)) tmp)) in
      o' <- mapM (py_index o) not_existing ;;
      sl' <- mapM (py_index sl) not_existing ;;
      segs' <- mapM (py_index segs) not_existing ;;
      Ok (sl', Some o', segs')
  | _, _ => Ok (sl, outs, segs)
  end.

End Manage.

End ManageLists.

(** ** [ImageEncoder.__init__] (encoder.py): the secondary convolution [p] *)

Module Encoder.

(** The shape parameters of an [nn.Conv3d]. *)
Record conv3d : Type := {
  in_channels : nat;
  out_channels : nat;
  kernel_size : nat;
  stride : nat;
  padding : nat
}.

(** [nn.Conv3d(args['latent_space_dim'], args['latent_space_dim']*2*2*2,
              kernel_size=2, stride=2, padding=0)] *)
Definition image_encoder_p (latent_space_dim : nat) : conv3d :=
  {| in_channels := latent_space_dim;
     out_channels := latent_space_dim * 2 * 2 * 2;
     kernel_size := 2;
     stride := 2;
     padding := 0 |}.

End Encoder.

(** ** [predict_from_data_iterator] *)

Module Iterator.

Import ManageLists.
Local Open Scope string_scope.

Definition str_of_nat (n : nat) : string :=
  DecimalString.NilEmpty.string_of_uint (Nat.to_uint n).

(** [os.path.join(ofile, *parts)]: [TypeError] when [ofile] is [None]. *)
Definition py_join (ofile : option string) (parts : list string) : result string :=
  match ofile with
  | None => Err TypeError
  | Some o => Ok (fold_left path_join parts o)
  end.

(** The record yielded by the data iterator ([data] is kept abstract). *)
Record record : Type := {
  ofile : option string;
  num_channel : nat;               (* properties['num_channel'] *)
  available_channel : list nat     (* properties['available_channel'] *)
}.

(** A job sent to the export pool. *)
Inductive task : Type :=
| Export (path : string)           (* export_prediction_from_logits(..., path, ...) *)
| ConvertInMemory.                 (* convert_predicted_logits_to_segmentation_with_correct_shape *)

(** The predictor attribute [one2one_translate_psnr] ([None]: never set)
    and the jobs queued so far. *)
Record pstate : Type := {
  one2one_translate_psnr : option (list (list (list R)));
  jobs : list task
}.

Definition push (st : pstate) (t : task) : pstate :=
  {| one2one_translate_psnr := one2one_translate_psnr st; jobs := app (jobs st) [t] |}.

(** [self.one2one_translate_psnr] *)
Definition get_psnr (st : pstate) : result (list (list (list R))) :=
  match one2one_translate_psnr st with
  | Some t => Ok t
  | None => Err AttributeError
  end.

(** [l[i] = v] for an index in range. *)
Fixpoint upd {A} (l : list A) (i : nat) (v : A) : list A :=
  match l, i with
  | [], _ => []
  | _ :: t, 0 => v :: t
  | x :: t, S i' => x :: upd t i' v
  end.

Fixpoint foldM {A S} (f : S -> A -> result S) (l : list A) (s : S) : result S :=
  match l with
  | [] => Ok s
  | x :: t => s' <- f s x ;; foldM f t s'
  end.

Section Loop.

(** [torch_PSNR(data[tgt_idx], hm_prediction)] for a record, a source and
    a target sequence. *)
Variable psnr_of : record -> nat -> nat -> R.

(** [self.one2one_translate_psnr[src_seq][tgt_seq].append(psnr)] *)
Definition append_psnr (st : pstate) (src_seq tgt_seq : nat) (v : R) : result pstate :=
  tbl <- get_psnr st ;;
  row <- py_index tbl src_seq ;;
  cell <- py_index row tgt_seq ;;
  Ok {| one2one_translate_psnr := Some (upd tbl src_seq (upd row tgt_seq (app cell [v])));
        jobs := jobs st |}.

(** One iteration of the loop over [enumerate(properties['available_channel'])]
    (lines 425-510). *)
Definition source_step (rc : record) (tgt_seq : nat) (st : pstate) (p : nat * nat)
    : result pstate :=
  let '(src_idx, src_seq) := p in
  let avail := available_channel rc in
  st <- (if existsb (Nat.eqb tgt_seq) avail
         then append_psnr st src_seq tgt_seq (psnr_of rc src_seq tgt_seq)
         else Ok st) ;;
  match ofile rc with
  | Some _ =>
      _ <- py_join (ofile rc) ["normalized_source_images"] ;;
      st <- (if Nat.eqb tgt_seq 0
             then path <- py_join (ofile rc) ["normalized_source_images";
                                              "norm_src_" ++ str_of_nat src_seq] ;;
                  Ok (push st (Export path))
             else Ok st) ;;
      _ <- py_join (ofile rc) ["one2one_inference"] ;;
      p1 <- py_join (ofile rc) ["one2one_inference"; "translate_src_" ++ str_of_nat src_seq
                                 ++ "_to_tgt_" ++ str_of_nat tgt_seq] ;;
      p2 <- py_join (ofile rc) ["one2one_inference"; "segment_src_" ++ str_of_nat src_seq] ;;
      _ <- py_join (ofile rc) ["latent_space"] ;;
      p3 <- py_join (ofile rc) ["latent_space"; "latent_space_src_" ++ str_of_nat src_seq] ;;
      let st := push (push (push st (Export p1)) (Export p2)) (Export p3) in
      if Nat.eqb src_idx (List.length avail - 1) then
        _ <- py_join (ofile rc) ["explainability_visualization/imaging_differentiation_map"] ;;
        if existsb (Nat.eqb tgt_seq) avail then
          p4 <- py_join (ofile rc) ["explainability_visualization/imaging_differentiation_map";
                                    "imaging_differentiation_map_tgt_" ++ str_of_nat tgt_seq] ;;
          Ok (push st (Export p4))
        else Ok st
      else Ok st
  | None => Ok (push st ConvertInMemory)
  end.

(** One iteration of the loop over [range(properties['num_channel'])]
    (lines 391-510); the predictions themselves are abstract. *)
Definition target_step (rc : record) (st : pstate) (tgt_seq : nat) : result pstate :=
  _ <- py_join (ofile rc) ["multi2one_inference"] ;;
  p1 <- py_join (ofile rc) ["multi2one_inference"; "translate_tgt_" ++ str_of_nat tgt_seq] ;;
  p2 <- py_join (ofile rc) ["multi2one_inference"; "segment"] ;;
  let st := push (push st (Export p1)) (Export p2) in
  _ <- py_join (ofile rc) ["explainability_visualization/task-specific_enhanced_map"] ;;
  p3 <- py_join (ofile rc) ["explainability_visualization/task-specific_enhanced_map";
                            "task-specific_enhanced_map_tgt_" ++ str_of_nat tgt_seq] ;;
  let st := push st (Export p3) in
  let avail := available_channel rc in
  foldM (source_step rc tgt_seq) (combine (seq 0 (List.length avail)) avail) st.

(** The body of the loop over the data iterator for one record. *)
Definition process_record (st : pstate) (rc : record) : result pstate :=
  foldM (target_step rc) (seq 0 (num_channel rc)) st.

End Loop.

End Iterator.

(** ** The synthesis-based sequence contribution (lines 516-540) *)

Module Contribution.

Import Iterator.
Local Open Scope R_scope.

(** [eps = 1e-9] *)
Definition eps : R := / 1000000000.

Definition sumR (l : list R) : R := fold_right Rplus 0 l.

(** [np.nanmean] and [np.nanstd] (population deviation) on NaN-free data. *)
Definition nanmean (l : list R) : R := sumR l / INR (List.length l).
Definition nanstd (l : list R) : R :=
  sqrt (sumR (map (fun x => (x - nanmean l) ^ 2) l) / INR (List.length l)).

(** [for p1 in table: for p2 in p1: all_psnr += p2] *)
Definition all_psnr (table : list (list (list R))) : list R :=
  fold_left (fun acc p1 => fold_left (fun acc p2 => app acc p2) p1 acc) table [].

(** [A[i][j]] *)
Definition getA (A : list (list R)) (i j : nat) : R := nth j (nth i A []) 0.

(** The double loop filling [A] (lines 519-529). *)
Definition build_A (N : nat) (table : list (list (list R))) : result (list (list R)) :=
  let all := all_psnr table in
  foldM (fun A i =>
           foldM (fun A j =>
                    row <- py_index table i ;;
                    cell <- py_index row j ;;
                    if Nat.eqb (List.length cell) 0 then Ok A
                    else Ok (upd A i (upd (nth i A []) j
                                        ((nanmean cell - nanmean all) / (nanstd all + eps)))))
                 (seq 0 N) A)
        (seq 0 N) (repeat (repeat 0 N) N).

(** The loop computing [metric_ct] and [metric_cd] (lines 530-538). *)
Definition sbsc_of (N : nat) (A : list (list R)) : list (nat * R * R) :=
  map (fun i =>
         (i,
          fold_left (fun acc j => acc + getA A i j) (seq 0 N) 0 / INR N,
          fold_left (fun acc j => acc - getA A j i) (seq 0 N) 0 / INR N))
      (seq 0 N).

Definition synthesis_contribution (N : nat) (table : list (list (list R)))
    : result (list (nat * R * R)) :=
  A <- build_A N table ;;
  Ok (sbsc_of N A).

(** The score of a cell in the spec's words: for a pair with at least one
    observation, (pair mean - global mean) / (global deviation + 1e-9), and
    0 for a pair without observation. *)
Definition spec_score (table : list (list (list R))) (i j : nat) : R :=
  let cell := nth j (nth i table []) [] in
  let all := concat (concat table) in
  match cell with
  | [] => 0
  | _ => (nanmean cell - nanmean all) / (nanstd all + eps)
  end.

End Contribution.

(** ** [predict_from_data_iterator], whole run *)

Module Run.

Import ManageLists Iterator Contribution.

Fixpoint dirname_acc (s dir seg : string) : string :=
  match s with
  | EmptyString => dir
  | String c r =>
      if Ascii.ascii_dec c "/"%char
      then dirname_acc r (if String.eqb dir EmptyString then seg
                          else (dir ++ "/" ++ seg)%string) EmptyString
      else dirname_acc r dir (seg ++ String c EmptyString)%string
  end.

(** [os.path.dirname(ofile)]: [TypeError] on [None]. *)
Definition py_dirname (ofile : option string) : result string :=
  match ofile with
  | None => Err TypeError
  | Some o => Ok (dirname_acc o EmptyString EmptyString)
  end.

(** The loop variable [ofile] after the loop: unbound when the iterator
    yielded nothing. *)
Definition last_ofile (recs : list record) : result (option string) :=
  match rev recs with
  | [] => Err UnboundLocalError
  | rc :: _ => Ok (ofile rc)
  end.

(** The method: queue the jobs of every record, then write the contribution
    report next to the last [ofile].  [tsf_num_channel] is
    [self.network.tsf.num_channel]; [to_csv] is [df.to_csv(path)], which
    may fail (e.g. [OSError] when the directory does not exist). *)
Definition predict_from_data_iterator (to_csv : string -> result unit)
    (psnr_of : record -> nat -> nat -> R)
    (tsf_num_channel : nat) (st : pstate) (recs : list record)
    : result (list task * list (nat * R * R)) :=
  st <- foldM (process_record psnr_of) recs st ;;
  table <- get_psnr st ;;
  sbsc <- synthesis_contribution tsf_num_channel table ;;
  o <- last_ofile recs ;;
  d <- py_dirname o ;;
  to_csv (path_join d "synthesis-based_sequence_contribution.csv"%string) ;;;
  Ok (jobs st, sbsc).

End Run.

(** ** [predict_single_npy_array] (lines 548-586) *)

Module SingleArray.

Local Open Scope string_scope.

(** A parameter of a Python signature, [self] excluded. *)
Record param := mk_param { pname : string; has_default : bool }.

(** Binding [nargs] positional arguments to a signature: [TypeError] when
    there are more arguments than parameters, or when a parameter without a
    default is left unbound. *)
Definition bind_positional (sig : list param) (nargs : nat) : result unit :=
  if Nat.ltb (List.length sig) nargs then Err TypeError
  else if existsb (fun p => negb (has_default p)) (skipn nargs sig) then Err TypeError
  else Ok tt.

(** [def predict_logits_from_preprocessed_data(self, data, target_code,
    properties=None, with_attn=True)] (line 588). *)
Definition predict_logits_from_preprocessed_data_sig : list param :=
  [mk_param "data" false; mk_param "target_code" false;
   mk_param "properties" true; mk_param "with_attn" true].

Inductive single_outcome (Seg Probs Ret : Type) : Type :=
| Exported                               (* [export_prediction_from_logits], returns [None] *)
| ReturnedPair (seg : Seg) (probs : Probs) (* [return ret[0], ret[1]] *)
| Returned (ret : Ret).                   (* [return ret] *)
Arguments Exported {Seg Probs Ret}.
Arguments ReturnedPair {Seg Probs Ret} seg probs.
Arguments Returned {Seg Probs Ret} ret.

Section Single.

Variables Img Props Dct Tensor Seg Probs Ret : Type.
(** [PreprocessAdapterFromNpy(...)] followed by [next(ppa)]; any outcome. *)
Variable preprocess : Img -> option Img -> Props -> option string -> result Dct.
Variable dct_data : Dct -> Tensor.
Variable dct_properties : Dct -> Props.
(** The body of [predict_logits_from_preprocessed_data] once its
    arguments are bound. *)
Variable predict_logits_body : list Tensor -> result (Tensor * Tensor * Tensor).
Variable export_prediction_from_logits : Tensor -> Props -> string -> bool -> result unit.
Variable convert_predicted_logits : Tensor -> Props -> bool -> result Ret.
(** [ret[0], ret[1]] *)
Variable ret_pair : Ret -> result (Seg * Probs).

Definition predict_logits_from_preprocessed_data (args : list Tensor)
    : result (Tensor * Tensor * Tensor) :=
  bind_positional predict_logits_from_preprocessed_data_sig (List.length args) ;;;
  predict_logits_body args.

(** The [.cpu()] calls are the identity here. *)
Definition predict_single_npy_array (input_image : Img) (image_properties : Props)
    (segmentation_previous_stage : option Img) (output_file_truncated : option string)
    (save_or_return_probabilities : bool) : result (single_outcome Seg Probs Ret) :=
  dct <- preprocess input_image segmentation_previous_stage image_properties
                    output_file_truncated ;;
  logits <- predict_logits_from_preprocessed_data [dct_data dct] ;;
  let '(predicted_logits, _, _) := logits in
  match output_file_truncated with
  | Some f =>
      export_prediction_from_logits predicted_logits (dct_properties dct) f
                                    save_or_return_probabilities ;;;
      Ok Exported
  | None =>
      ret <- convert_predicted_logits predicted_logits (dct_properties dct)
                                      save_or_return_probabilities ;;
      if save_or_return_probabilities
      then p <- ret_pair ret ;; Ok (ReturnedPair (fst p) (snd p))
      else Ok (Returned ret)
  end.

End Single.

End SingleArray.

(** ** Python's [int(str)], [str(int)] and [s.split('_')[-1]] *)

Module PyStr.

Import ManageLists Iterator.
Local Open Scope string_scope.

(** The characters [int()] skips around the number (ASCII part of
    Python's whitespace: \t \n \v \f \r, \x1c-\x1f and the space). *)
Definition is_py_space (c : ascii) : bool :=
  let n := nat_of_ascii c in
  Nat.eqb n 32 || (Nat.leb 9 n && Nat.leb n 13) || (Nat.leb 28 n && Nat.leb n 31).

Definition digit_value (c : ascii) : option nat :=
  let n := nat_of_ascii c in
  if Nat.leb 48 n && Nat.leb n 57 then Some (n - 48) else None.

Fixpoint all_space (s : string) : bool :=
  match s with
  | EmptyString => true
  | String c r => is_py_space c && all_space r
  end.

Fixpoint skip_space (s : string) : string :=
  match s with
  | EmptyString => EmptyString
  | String c r => if is_py_space c then skip_space r else s
  end.

(** The digits of a base-10 literal, [digit (["_"] digit)*], then optional
    whitespace; [after_digit] tells whether the previous character was a
    digit. *)
Fixpoint int_body (acc : nat) (after_digit : bool) (s : string) : option nat :=
  match s with
  | EmptyString => if after_digit then Some acc else None
  | String c r =>
      match digit_value c with
      | Some d => int_body (acc * 10 + d) true r
      | None =>
          if after_digit && Ascii.eqb c "_" then int_body acc false r
          else if after_digit && is_py_space c && all_space r then Some acc
          else None
      end
  end.

Definition int_of_body (neg : bool) (s : string) : result Z :=
  match int_body 0 false s with
  | Some n => Ok (if neg then (- Z.of_nat n)%Z else Z.of_nat n)
  | None => Err ValueError
  end.

(** [int(s)] for an ASCII string: [ValueError] when [s] is not a base-10
    literal. *)
Definition py_int (s : string) : result Z :=
  match skip_space s with
  | String c r =>
      if Ascii.eqb c "-" then int_of_body true r
      else if Ascii.eqb c "+" then int_of_body false r
      else int_of_body false (String c r)
  | EmptyString => Err ValueError
  end.

(** [str(z)] for an int. *)
Definition py_str_int (z : Z) : string :=
  if Z.ltb z 0 then "-" ++ str_of_nat (Z.to_nat (- z)) else str_of_nat (Z.to_nat z).

Fixpoint last_segment_acc (s acc : string) : string :=
  match s with
  | EmptyString => acc
  | String c r =>
      if Ascii.eqb c "_" then last_segment_acc r EmptyString
      else last_segment_acc r (acc ++ String c EmptyString)
  end.

(** [s.split('_')[-1]] *)
Definition last_segment (s : string) : string := last_segment_acc s EmptyString.

End PyStr.

(** ** [auto_detect_available_folds] and [initialize_from_trained_model_folder] *)

Module Folds.

Import ManageLists Iterator PyStr.
Local Open Scope string_scope.

(** [join(a, b, c)] of batchgenerators, for relative [b] and [c]. *)
Definition join3 (a b c : string) : string := path_join (path_join a b) c.

Section AutoDetect.

Variable isfile : string -> bool.

(** [fold_folders] is [subdirs(model_training_output_dir, prefix='fold_',
    join=False)]. *)
Definition auto_detect_available_folds (model_training_output_dir checkpoint_name : string)
    (fold_folders : list string) : result (list Z) :=
  let ff := filter (fun i => negb (String.eqb i "fold_all")) fold_folders in
  let ff := filter (fun i => isfile (join3 model_training_output_dir i checkpoint_name)) ff in
  mapM (fun i => py_int (last_segment i)) ff.

End AutoDetect.

(** An entry of [use_folds]: an int or a string. *)
Inductive fold : Type :=
| FoldInt (z : Z)
| FoldStr (s : string).

(** The [use_folds] argument: [None], one string, or a sequence. *)
Inductive use_folds_arg : Type :=
| FoldsNone
| FoldsStr (s : string)
| FoldsSeq (l : list fold).

(** [f = int(f) if f != 'all' else f] *)
Definition fold_key (f : fold) : result fold :=
  match f with
  | FoldInt z => Ok (FoldInt z)
  | FoldStr s => if String.eqb s "all" then Ok (FoldStr s)
                 else z <- py_int s ;; Ok (FoldInt z)
  end.

(** [f'fold_{f}'] *)
Definition fold_dir (f : fold) : string :=
  match f with
  | FoldInt z => "fold_" ++ py_str_int z
  | FoldStr s => "fold_" ++ s
  end.

(** The keys of a checkpoint the method reads; the optional
    ['inference_allowed_mirroring_axes'] is [None] when absent. *)
Record checkpoint (W : Type) : Type := mk_checkpoint {
  ck_trainer_name : string;
  ck_configuration : string;                       (* ['init_args']['configuration'] *)
  ck_inference_allowed_mirroring_axes : option (list nat);
  ck_network_weights : W
}.
Arguments mk_checkpoint {W}.
Arguments ck_trainer_name {W}.
Arguments ck_configuration {W}.
Arguments ck_inference_allowed_mirroring_axes {W}.
Arguments ck_network_weights {W}.

Section Init.

Variables W J PM CM Net : Type.
Variable isfile : string -> bool.
(** [subdirs(d, prefix='fold_', join=False)] *)
Variable subdirs_fold : string -> list string.
Variable load_json : string -> result J.
Variable plans_manager_of : J -> PM.                   (* [PlansManager(plans)] *)
Variable torch_load : string -> result (checkpoint W).
Variable get_configuration : PM -> string -> result CM.
(** Finding the trainer class and building the network. *)
Variable build_network : string -> PM -> CM -> J -> result Net.
(** [torch.compile] when the environment asks for it, else the identity. *)
Variable maybe_compile : Net -> Net.

(** The attributes the method sets. *)
Record init_state : Type := {
  plans_manager : PM;
  configuration_manager : CM;
  list_of_parameters : list W;
  network : Net;
  dataset_json : J;
  trainer_name : string;
  allowed_mirroring_axes : option (list nat)
}.

(** The locals [trainer_name], [configuration_name] and
    [inference_allowed_mirroring_axes] (bound at [i == 0]) and
    [parameters]. *)
Definition fold_acc : Type := option (string * string * option (list nat)) * list W.

(** One iteration of [for i, f in enumerate(use_folds)]. *)
Definition load_fold (dir checkpoint_name : string) (acc : fold_acc) (p : nat * fold)
    : result fold_acc :=
  let '(i, f) := p in
  f <- fold_key f ;;
  ck <- torch_load (join3 dir (fold_dir f) checkpoint_name) ;;
  let first := if Nat.eqb i 0
               then Some (ck_trainer_name ck, ck_configuration ck,
                          ck_inference_allowed_mirroring_axes ck)
               else fst acc in
  Ok (first, app (snd acc) [ck_network_weights ck]).

Definition initialize_from_trained_model_folder (dir : string) (use_folds : use_folds_arg)
    (checkpoint_name : string) : result init_state :=
  use_folds <- match use_folds with
               | FoldsNone =>
                   zs <- auto_detect_available_folds isfile dir checkpoint_name (subdirs_fold dir) ;;
                   Ok (FoldsSeq (map FoldInt zs))
               | u => Ok u
               end ;;
  dataset_json <- load_json (path_join dir "dataset.json") ;;
  plans <- load_json (path_join dir "plans.json") ;;
  let pm := plans_manager_of plans in
  let folds := match use_folds with
               | FoldsStr s => [FoldStr s]
               | FoldsSeq l => l
               | FoldsNone => []
               end in
  acc <- foldM (load_fold dir checkpoint_name) (combine (seq 0 (List.length folds)) folds)
               (None, []) ;;
  match fst acc with
  | None => Err UnboundLocalError          (* [configuration_name] never bound *)
  | Some (tn, cn, axes) =>
      cm <- get_configuration pm cn ;;
      net <- build_network tn pm cm dataset_json ;;
      Ok {| plans_manager := pm;
            configuration_manager := cm;
            list_of_parameters := snd acc;
            network := maybe_compile net;
            dataset_json := dataset_json;
            trainer_name := tn;
            allowed_mirroring_axes := axes |}
  end.

End Init.

Arguments initialize_from_trained_model_folder {W J PM CM Net}.
Arguments plans_manager {W J PM CM Net}.
Arguments configuration_manager {W J PM CM Net}.
Arguments list_of_parameters {W J PM CM Net}.
Arguments network {W J PM CM Net}.
Arguments dataset_json {W J PM CM Net}.
Arguments trainer_name {W J PM CM Net}.
Arguments allowed_mirroring_axes {W J PM CM Net}.
Arguments load_fold {W}.

End Folds.

(** ** [predict_logits_from_preprocessed_data] (lines 588-635) *)

Module Ensemble.

Local Open Scope R_scope.

(** Tensors are taken voxel-wise, as reals; the three outputs are the
    translation, the mask logits and the latent space. *)
Definition add3 (a b : R * R * R) : R * R * R :=
  let '(p, m, l) := a in let '(p', m', l') := b in (p + p', m + m', l + l').

Definition div3 (a : R * R * R) (k : R) : R * R * R :=
  let '(p, m, l) := a in (p / k, m / k, l / k).

(** [torch.get_num_threads()] and the weights last loaded into the network
    ([None]: those it was built with). *)
Record torch_state (P : Type) : Type := mk_torch_state {
  num_threads : nat;
  loaded : option P
}.
Arguments mk_torch_state {P}.
Arguments num_threads {P}.
Arguments loaded {P}.

Section Ensemble.

Variable P : Type.
(** [load_state_dict(params)] *)
Variable load_state_dict : P -> result unit.
(** [predict_sliding_window_return_logits(data, target_code, ...)] run with
    the network holding the given weights. *)
Variable sliding_window : P -> result (R * R * R).

Definition ensemble_step (acc : result (option (R * R * R)) * torch_state P) (params : P)
    : result (option (R * R * R)) * torch_state P :=
  match fst acc with
  | Err e => acc
  | Ok prediction =>
      match load_state_dict params with
      | Err e => (Err e, snd acc)
      | Ok _ =>
          let ts := mk_torch_state (num_threads (snd acc)) (Some params) in
          match sliding_window params with
          | Err e => (Err e, ts)
          | Ok r =>
              (Ok (Some (match prediction with None => r | Some q => add3 q r end)), ts)
          end
      end
  end.

(** The method; [list_of_parameters] is [None] before initialisation.  The
    thread count is restored only when no exception is raised. *)
Definition predict_logits_from_preprocessed_data (ts : torch_state P)
    (list_of_parameters : option (list P)) : result (R * R * R) * torch_state P :=
  let n_threads := num_threads ts in
  let ts1 := mk_torch_state (if Nat.ltb 8 n_threads then 8%nat else n_threads) (loaded ts) in
  match list_of_parameters with
  | None => (Err TypeError, ts1)                 (* iterating over [None] *)
  | Some ps =>
      let '(res, ts2) := fold_left ensemble_step ps (Ok None, ts1) in
      match res with
      | Err e => (Err e, ts2)
      | Ok None => (Err AttributeError, ts2)     (* [None.to('cpu')] *)
      | Ok (Some prediction) =>
          let prediction := if Nat.ltb 1 (List.length ps)
                            then div3 prediction (INR (List.length ps))
                            else prediction in
          (Ok prediction, mk_torch_state n_threads (loaded ts2))
      end
  end.

End Ensemble.

End Ensemble.

(** ** [_internal_get_sliding_window_slicers] (lines 637-669) *)

Module Slicers.

(** An index of a slicer tuple: [slice(None)], an int, [slice(a, b)]. *)
Inductive slice_item : Type :=
| SAll
| SIdx (d : nat)
| SRange (a b : nat).

(** [[slice(si, si + ti) for si, ti in zip(starts, patch_size)]] *)
Definition windows (starts patch_size : list nat) : list slice_item :=
  map (fun '(si, ti) => SRange si (si + ti)) (combine starts patch_size).

(** [for x in l: ...] where each iteration yields a list of slicers. *)
Definition concat_mapM {A B} (f : A -> result (list B)) (l : list A) : result (list B) :=
  r <- mapM f l ;; Ok (concat r).

Section Slicers.

(** [compute_steps_for_sliding_window(image_size, patch_size,
    self.tile_step_size)] *)
Variable compute_steps : list nat -> list nat -> list (list nat).

Definition get_sliding_window_slicers (verbose : bool) (patch_size image_size : list nat)
    : result (list (list slice_item)) :=
  if Nat.ltb (List.length patch_size) (List.length image_size) then
    assert (Nat.eqb (List.length patch_size) (List.length image_size - 1)) ;;;
    let steps := compute_steps (tl image_size) patch_size in
    (if verbose then d0 <- py_index image_size 0 ;; s0 <- py_index steps 0 ;;
                     s1 <- py_index steps 1 ;; Ok tt
     else Ok tt) ;;;
    d0 <- py_index image_size 0 ;;
    concat_mapM (fun d =>
      s0 <- py_index steps 0 ;;
      concat_mapM (fun sx =>
        s1 <- py_index steps 1 ;;
        Ok (map (fun sy => SAll :: SIdx d :: windows [sx; sy] patch_size) s1)) s0)
      (seq 0 d0)
  else
    let steps := compute_steps image_size patch_size in
    s0 <- py_index steps 0 ;;
    concat_mapM (fun sx =>
      s1 <- py_index steps 1 ;;
      concat_mapM (fun sy =>
        s2 <- py_index steps 2 ;;
        Ok (map (fun sz => SAll :: windows [sx; sy; sz] patch_size) s2)) s1) s0.

End Slicers.

End Slicers.

(** ** [ImageEncoder.__init__] and the spatial sizes of [forward] *)

Module EncoderBuild.

Import Encoder Iterator.

(** The keys of [args] the constructor reads. *)
Record encoder_args : Type := {
  a_in_channels : nat;
  a_conv_channels : list nat;
  a_conv_kernel : list nat;
  a_conv_stride : list nat;
  a_resblock_n : list nat;
  a_resblock_kernel : list nat;
  a_resblock_padding : list nat;
  a_layer_scale_init_value : R;
  a_latent_space_dim : nat;
  a_vq_beta : R;
  a_vq_n_embed : nat
}.

Inductive layer : Type :=
| LConv (c : conv3d)
| LNorm (channels : nat)                            (* [LayerNorm(c, ...)] *)
| LAttnRes (dim n_layer kernel_size padding : nat)  (* [AttnResBlock(...)] *)
| LUpsample (scale_factor : nat).                   (* [nn.Upsample(..., 'nearest')] *)

Record image_encoder : Type := {
  down_layers : list (list layer);
  up_layers : list (list layer);
  conv_latent : conv3d;
  quantize : nat * nat * R;                         (* [VectorQuantizer(n_embed, dim, beta)] *)
  p : conv3d
}.

Definition conv (cin cout k s : nat) : conv3d :=
  {| in_channels := cin; out_channels := cout; kernel_size := k; stride := s; padding := 0 |}.

(** [zip(c_enc, k_enc, s_enc, n_res, k_res, p_res)] *)
Definition zip6 (a : encoder_args) : list (nat * nat * nat * nat * nat * nat) :=
  combine (combine (combine (combine (combine (a_conv_channels a) (a_conv_kernel a))
                                     (a_conv_stride a)) (a_resblock_n a))
                   (a_resblock_kernel a)) (a_resblock_padding a).

(** The loop state: [c_pre], [up_scale], [up_channel] and the two module
    lists. *)
Definition build_state : Type :=
  nat * nat * option nat * list (list layer) * list (list layer).

Definition build_stage (st : build_state) (x : nat * (nat * nat * nat * nat * nat * nat))
    : result build_state :=
  let '(c_pre, up_scale, up_channel, downs, ups) := st in
  let '(i, (ce, ke, se, nr, kr, pr)) := x in
  let '(block, up_scale, up_channel) :=
    if Nat.eqb i 0
    then ([LConv (conv c_pre ce se se)] ++ (if Nat.eqb nr 0 then [] else [LNorm ce]),
          up_scale, Some ce)
    else ([LNorm c_pre; LConv (conv c_pre ce se se)], up_scale * se, up_channel) in
  let block := block ++ [LAttnRes ce nr kr pr] in
  match up_channel with
  | None => Err TypeError
  | Some uc =>
      let up := if Nat.eqb up_scale 1
                then [LConv (conv ce uc 1 1); LNorm uc]
                else [LConv (conv ce uc 1 1); LNorm uc; LUpsample up_scale] in
      Ok (ce, up_scale, up_channel, app downs [block], app ups [up])
  end.

Definition build_image_encoder (a : encoder_args) : result image_encoder :=
  let stages := zip6 a in
  st <- foldM build_stage (combine (seq 0 (List.length stages)) stages)
              (a_in_channels a, 1, None, [], []) ;;
  let '(_, _, up_channel, downs, ups) := st in
  match up_channel with
  | None => Err TypeError                 (* [None * len(self.c_enc)] *)
  | Some uc =>
      Ok {| down_layers := downs;
            up_layers := ups;
            conv_latent := conv (uc * List.length (a_conv_channels a)) (a_latent_space_dim a) 1 1;
            quantize := (a_vq_n_embed a, a_latent_space_dim a, a_vq_beta a);
            p := image_encoder_p (a_latent_space_dim a) |}
  end.

Section Sizes.

(** The size along one spatial axis after an [AttnResBlock]. *)
Variable attn_res_size : nat -> nat -> nat -> nat -> nat -> nat.

(** [nn.Conv3d] along one axis: PyTorch raises when the padded input is
    smaller than the kernel. *)
Definition conv_out_size (c : conv3d) (n : nat) : result nat :=
  if Nat.ltb (n + 2 * padding c) (kernel_size c)
  then Err (RuntimeError "Kernel size can't be greater than actual input size")
  else Ok ((n + 2 * padding c - kernel_size c) / stride c + 1).

Definition layer_size (n : nat) (l : layer) : result nat :=
  match l with
  | LConv c => conv_out_size c n
  | LNorm _ => Ok n
  | LAttnRes d nl k pd => Ok (attn_res_size d nl k pd n)
  | LUpsample s => Ok (n * s)
  end.

(** [for down, up in zip(self.down_layers, self.up_layers): x = down(x);
    f = up(x); features.append(f)]: the sizes of the features. *)
Definition forward_sizes (e : image_encoder) (n : nat) : result (list nat) :=
  r <- foldM (fun '(x, fs) '(down, up) =>
                x <- foldM layer_size down x ;;
                f <- foldM layer_size up x ;;
                Ok (x, app fs [f]))
             (combine (down_layers e) (up_layers e)) (n, []) ;;
  Ok (snd r).

End Sizes.

End EncoderBuild.

(** ** [nnSeq2SeqPredictor.__init__] *)

Module Predictor.

Import SlidingWindow.

Record predictor : Type := {
  tile_step_size : R;
  use_gaussian : bool;
  use_mirroring : bool;
  perform_everything_on_device : bool;
  pdevice : device;
  verbose : bool;
  verbose_preprocessing : bool;
  allow_tqdm : bool
}.

Definition is_cuda (d : device) : bool := match d with Cuda => true | _ => false end.

Definition nnSeq2SeqPredictor_init (tile_step_size : R) (use_gaussian use_mirroring
    perform_everything_on_device : bool) (dev : device) (verbose verbose_preprocessing
    allow_tqdm : bool) : predictor :=
  {| tile_step_size := tile_step_size;
     use_gaussian := use_gaussian;
     use_mirroring := use_mirroring;
     perform_everything_on_device := if is_cuda dev then perform_everything_on_device else false;
     pdevice := dev;
     verbose := verbose;
     verbose_preprocessing := verbose_preprocessing;
     allow_tqdm := allow_tqdm |}.

(** [mirror_axes = self.allowed_mirroring_axes if self.use_mirroring else None] *)
Definition mirror_axes_of (pr : predictor) (allowed_mirroring_axes : option (list nat))
    : option (list nat) :=
  if use_mirroring pr then allowed_mirroring_axes else None.

End Predictor.

(** ** [predict_from_files] (lines 203-274) *)

Module Files.

Import ManageLists Iterator Run.

(** The type of [list_of_lists_or_source_folder]. *)
Inductive source_arg : Type :=
| SrcFolder (folder : string)
| SrcLists (l : list (list string)).

(** [None] (nothing left to predict), or the call of
    [predict_from_data_iterator] on the iterator over these lists, with the
    predictor in the given state. *)
Inductive files_outcome : Type :=
| NothingToDo
| Iterate (sources : list (list string)) (outputs : option (list string))
          (segs : list (option string)) (st : pstate).

Section Files.

Variable isfile : string -> bool.
Variable file_ending : string.                  (* [self.dataset_json['file_ending']] *)
(** [create_lists_from_splitted_dataset_folder(folder, file_ending)] *)
Variable create_lists : string -> list (list string).
Variable tsf_num_channel : nat.                 (* [self.network.tsf.num_channel] *)
Variable previous_stage_name : option string.   (* [configuration_manager.previous_stage_name] *)
(** [maybe_mkdir_p(d)] ([os.makedirs], which raises [FileNotFoundError] for
    an empty path). *)
Variable maybe_mkdir_p : string -> result unit.
(** [save_json(obj, path)] and [df.to_csv(path)]: writing a file. *)
Variable write_file : string -> result unit.
(** [self.network.tsf.infer_contribution(code)] for the code of target
    [Some tgt_id] or for the segmentation code [None]. *)
Variable infer_contribution : option nat -> result unit.

(** The output folder: [out] itself, the directory of the first truncated
    output file, or [None]. *)
Definition output_folder_of (out : out_arg) : result (option string) :=
  match out with
  | OutFolder f => Ok (Some f)
  | OutList l => x <- py_index l 0 ;; d <- py_dirname (Some x) ;; Ok (Some d)
  | OutNone => Ok None
  end.

(** Lines 226-250: the folder, the three JSON files, the contribution
    weights of every target and of segmentation, and their CSV file. *)
Definition write_run_files (output_folder : string) : result unit :=
  maybe_mkdir_p output_folder ;;;
  write_file (path_join output_folder "predict_from_raw_data_args.json") ;;;
  write_file (path_join output_folder "dataset.json") ;;;
  write_file (path_join output_folder "plans.json") ;;;
  _ <- mapM (fun t => infer_contribution (Some t)) (seq 0 tsf_num_channel) ;;
  infer_contribution None ;;;
  write_file (path_join output_folder "task-specific_sequence_contribution.csv").

(** The method up to the call of [predict_from_data_iterator]. *)
Definition predict_from_files (st : pstate) (src : source_arg) (out : out_arg)
    (save_probabilities overwrite : bool) (folder_with_segs_from_prev_stage : option string)
    (num_parts part_id : nat) : result files_outcome :=
  output_folder <- output_folder_of out ;;
  match output_folder with
  | Some d => write_run_files d
  | None => Ok tt
  end ;;;
  let st := match output_folder with
            | Some _ => {| one2one_translate_psnr :=
                             Some (repeat (repeat [] tsf_num_channel) tsf_num_channel);
                           jobs := jobs st |}
            | None => st
            end in
  match previous_stage_name with
  | Some _ => assert (match folder_with_segs_from_prev_stage with Some _ => true | None => false end)
  | None => Ok tt
  end ;;;
  let sources := match src with SrcFolder f => create_lists f | SrcLists l => l end in
  r <- manage_input_and_output_lists isfile file_ending sources out
         folder_with_segs_from_prev_stage overwrite part_id num_parts save_probabilities ;;
  let '(sl, outs, segs) := r in
  if Nat.eqb (List.length sl) 0 then Ok NothingToDo
  else Ok (Iterate sl outs segs st).

End Files.

End Files.

(** ** The command line entry points (lines 854-1095) *)

Module EntryPoint.

Import SlidingWindow Predictor Folds PyStr.
Local Open Scope string_scope.

(** The parsed arguments ([None] for [-f] is its default [(0, 1, 2, 3, 4)];
    a flag is [true] when given on the command line). *)
Record cli_args : Type := {
  arg_i : string;
  arg_o : string;
  arg_m : string;                 (* [predict_entry_point_modelfolder] *)
  arg_d : string;                 (* [predict_entry_point] *)
  arg_c : string;
  arg_p : string;
  arg_tr : string;
  arg_f : option (list string);
  arg_step_size : R;
  disable_tta_flag : bool;
  verbose_flag : bool;
  save_probabilities_flag : bool;
  continue_prediction_flag : bool;
  arg_chk : string;
  arg_npp : Z;
  arg_nps : Z;
  arg_prev_stage_predictions : option string;
  arg_num_parts : Z;
  arg_part_id : Z;
  arg_device : string;
  disable_progress_bar_flag : bool
}.

(** [action='store_true'] with an explicit [default] *)
Definition store_true (given default : bool) : bool := if given then true else default.

(** [args.f = [i if i == 'all' else int(i) for i in args.f]] *)
Definition parse_folds (f : option (list string)) : result (list fold) :=
  match f with
  | None => Ok (map FoldInt [0; 1; 2; 3; 4]%Z)
  | Some l => mapM (fun i => if String.eqb i "all" then Ok (FoldStr i)
                             else z <- py_int i ;; Ok (FoldInt z)) l
  end.

Definition parse_device (d : string) : result device :=
  assert (existsb (String.eqb d) ["cpu"; "cuda"; "mps"]) ;;;
  Ok (if String.eqb d "cpu" then Cpu else if String.eqb d "cuda" then Cuda else Mps).

(** What the entry point passes on: the predictor it builds, the arguments
    of [initialize_from_trained_model_folder] and those of
    [predict_from_files]. *)
Record launch : Type := {
  l_predictor : predictor;
  l_model_folder : string;
  l_folds : list fold;
  l_checkpoint_name : string;
  l_input : string;
  l_output : string;
  l_save_probabilities : bool;
  l_overwrite : bool;
  l_num_processes_preprocessing : Z;
  l_num_processes_segmentation_export : Z;
  l_folder_with_segs_from_prev_stage : option string;
  l_num_parts : Z;
  l_part_id : Z
}.

Section Entry.

(** [maybe_mkdir_p(args.o)] when [args.o] is not a directory. *)
Variable make_output_dir : string -> result unit.
(** [get_output_folder(args.d, args.tr, args.p, args.c)]: the dataset and
    results-path lookups may raise. *)
Variable get_output_folder : string -> string -> string -> string -> result string.

Definition predict_entry_point_modelfolder (a : cli_args) : result launch :=
  folds <- parse_folds (arg_f a) ;;
  make_output_dir (arg_o a) ;;;
  dev <- parse_device (arg_device a) ;;
  let pr := nnSeq2SeqPredictor_init (arg_step_size a) true
              (negb (store_true (disable_tta_flag a) false)) true dev
              (verbose_flag a) (verbose_flag a) (negb (disable_progress_bar_flag a)) in
  Ok {| l_predictor := pr; l_model_folder := arg_m a; l_folds := folds;
        l_checkpoint_name := arg_chk a; l_input := arg_i a; l_output := arg_o a;
        l_save_probabilities := save_probabilities_flag a;
        l_overwrite := negb (continue_prediction_flag a);
        l_num_processes_preprocessing := arg_npp a;
        l_num_processes_segmentation_export := arg_nps a;
        l_folder_with_segs_from_prev_stage := arg_prev_stage_predictions a;
        l_num_parts := 1; l_part_id := 0 |}.

(** [--disable_tta] is declared with [action='store_true', default=True]. *)
Definition predict_entry_point (a : cli_args) : result launch :=
  folds <- parse_folds (arg_f a) ;;
  model_folder <- get_output_folder (arg_d a) (arg_tr a) (arg_p a) (arg_c a) ;;
  make_output_dir (arg_o a) ;;;
  assert (Z.ltb (arg_part_id a) (arg_num_parts a)) ;;;
  dev <- parse_device (arg_device a) ;;
  let pr := nnSeq2SeqPredictor_init (arg_step_size a) true
              (negb (store_true (disable_tta_flag a) true)) true dev
              (verbose_flag a) (verbose_flag a) (negb (disable_progress_bar_flag a)) in
  Ok {| l_predictor := pr; l_model_folder := model_folder; l_folds := folds;
        l_checkpoint_name := arg_chk a; l_input := arg_i a; l_output := arg_o a;
        l_save_probabilities := save_probabilities_flag a;
        l_overwrite := negb (continue_prediction_flag a);
        l_num_processes_preprocessing := arg_npp a;
        l_num_processes_segmentation_export := arg_nps a;
        l_folder_with_segs_from_prev_stage := arg_prev_stage_predictions a;
        l_num_parts := arg_num_parts a; l_part_id := arg_part_id a |}.

End Entry.

End EntryPoint.

(* ================================================================== *)
(** * Proofs *)
(* ================================================================== *)

Module MirrorFacts.
Import Mirror.

Lemma combinations_too_long {A} (l : list A) :
  forall k, length l < k -> combinations k l = [].
Proof.
  induction l as [|x t IH]; intros k Hk; destruct k as [|k]; simpl in *; try lia.
  - reflexivity.
  - rewrite (IH k) by lia. rewrite (IH (S k)) by lia. reflexivity.
Qed.

Lemma flat_map_seq_succ {A} (f : nat -> list A) (m : nat) :
  flat_map f (seq 0 (S m)) = f 0 ++ flat_map (fun i => f (S i)) (seq 0 m).
Proof.
  simpl. f_equal. rewrite <- seq_shift.
  induction (seq 0 m) as [|a l IH]; simpl; [reflexivity|]. now rewrite IH.
Qed.

Lemma flat_map_seq_last {A} (f : nat -> list A) (m : nat) :
  flat_map f (seq 0 (S m)) = flat_map f (seq 0 m) ++ f m.
Proof.
  rewrite seq_S, flat_map_app. simpl. now rewrite app_nil_r.
Qed.

(** Taking the combinations of every size enumerates the power set. *)
Lemma combinations_all_sizes {A} (l : list A) :
  forall m, length l < m ->
  Permutation (flat_map (fun i => combinations i l) (seq 0 m)) (subseqs l).
Proof.
  induction l as [|x t IH]; intros m Hm.
  - destruct m as [|m]; simpl in Hm; [lia|].
    rewrite flat_map_seq_succ. simpl.
    induction (seq 0 m) as [|a s IHs]; simpl; auto.
  - destruct m as [|m]; simpl in Hm; [lia|].
    rewrite flat_map_seq_succ. simpl combinations at 1.
    assert (Hsplit : flat_map (fun i => combinations (S i) (x :: t)) (seq 0 m)
             = flat_map (fun i => map (cons x) (combinations i t) ++ combinations (S i) t)
                        (seq 0 m)) by reflexivity.
    rewrite Hsplit.
    assert (Hdist : forall (g h : nat -> list (list A)) (s : list nat),
               Permutation (flat_map (fun i => g i ++ h i) s)
                           (flat_map g s ++ flat_map h s)).
    { intros g h s. induction s as [|a s IHs]; simpl; [reflexivity|].
      rewrite <- !app_assoc. apply Permutation_app_head.
      rewrite IHs. rewrite !app_assoc. apply Permutation_app_tail.
      apply Permutation_app_comm. }
    rewrite Hdist.
    assert (Hmap : flat_map (fun i => map (cons x) (combinations i t)) (seq 0 m)
                   = map (cons x) (flat_map (fun i => combinations i t) (seq 0 m))).
    { induction (seq 0 m) as [|a s IHs]; simpl; [reflexivity|].
      now rewrite map_app, IHs. }
    rewrite Hmap. simpl subseqs.
    cbn [app]. etransitivity; [apply Permutation_middle|].
    apply Permutation_app.
    + apply Permutation_map. apply IH. lia.
    + assert (Hrest : [] :: flat_map (fun i => combinations (S i) t) (seq 0 m)
                      = flat_map (fun i => combinations i t) (seq 0 (S m))).
      { rewrite flat_map_seq_succ. destruct t; reflexivity. }
      rewrite Hrest, flat_map_seq_last.
      rewrite (combinations_too_long t m) by lia. rewrite app_nil_r.
      apply IH. lia.
Qed.

Lemma subseqs_length {A} (l : list A) : length (subseqs l) = 2 ^ length l.
Proof.
  induction l as [|x t IH]; simpl; [reflexivity|].
  rewrite length_app, length_map, IH. lia.
Qed.

(** The unflipped pass followed by the code's combinations is the power set
    of the shifted axes. *)
Lemma axes_combinations_power_set (ma : list nat) :
  Permutation ([] :: axes_combinations ma) (subseqs (map (fun m => m + 2) ma)).
Proof.
  unfold axes_combinations.
  replace (flat_map (fun i => combinations (i + 1) (map (fun m => m + 2) ma))
                    (seq 0 (length ma)))
    with (flat_map (fun i => combinations (S i) (map (fun m => m + 2) ma))
                   (seq 0 (length ma))).
  2:{ apply flat_map_ext. intros i. now rewrite Nat.add_1_r. }
  assert (H0 : forall X, [] :: X = combinations 0 (map (fun m => m + 2) ma) ++ X)
    by (destruct ma; reflexivity).
  rewrite H0, <- (flat_map_seq_succ (fun i => combinations i (map (fun m => m + 2) ma))).
  apply combinations_all_sizes. rewrite length_map. lia.
Qed.

Lemma axes_combinations_length (ma : list nat) :
  length (axes_combinations ma) = 2 ^ length ma - 1.
Proof.
  pose proof (Permutation_length (axes_combinations_power_set ma)) as H.
  rewrite subseqs_length, length_map in H. simpl in H. lia.
Qed.

Lemma py_max_list_max (x : nat) (t : list nat) :
  py_max (x :: t) = Ok (list_max (x :: t)).
Proof.
  simpl. f_equal. revert x. induction t as [|y t IH]; intros x; simpl.
  - lia.
  - rewrite IH. simpl. lia.
Qed.

Section Averaging.

(** The tensor operations used by the accumulation, with the laws of
    (idealised) addition: [tadd] is associative and commutative with unit
    [tzero], and flipping along no axis is the identity. *)
Variable T : Type.
Variable tadd : T -> T -> T.
Variable tzero : T.
Variable tdiv : T -> nat -> T.
Variable flip : list nat -> T -> T.
Variable fwd : T -> T * T * T.
Hypothesis tadd_assoc : forall a b c, tadd a (tadd b c) = tadd (tadd a b) c.
Hypothesis tadd_comm : forall a b, tadd a b = tadd b a.
Hypothesis tadd_zero : forall a, tadd tzero a = a.
Hypothesis flip_nil : forall a, flip [] a = a.

Definition zero3 : T * T * T := (tzero, tzero, tzero).

(** The sum of a list of (translation, mask, latent) triples. *)
Definition sum3 (l : list (T * T * T)) : T * T * T :=
  fold_right (add3 T tadd) zero3 l.

(** The sub-prediction of one flip combination: flip the input, run the
    forward logic, flip the three results back. *)
Definition sub_prediction (inp : T) (axes : list nat) : T * T * T :=
  flip3 T flip axes (fwd (flip axes inp)).

Lemma add3_assoc a b c :
  add3 T tadd a (add3 T tadd b c) = add3 T tadd (add3 T tadd a b) c.
Proof.
  destruct a as [[? ?] ?], b as [[? ?] ?], c as [[? ?] ?]; simpl.
  now rewrite !tadd_assoc.
Qed.

Lemma add3_comm a b : add3 T tadd a b = add3 T tadd b a.
Proof.
  destruct a as [[? ?] ?], b as [[? ?] ?]; simpl. f_equal; [f_equal|]; apply tadd_comm.
Qed.

Lemma add3_zero_r a : add3 T tadd a zero3 = a.
Proof.
  destruct a as [[? ?] ?]; simpl. now rewrite !(tadd_comm _ tzero), !tadd_zero.
Qed.

Lemma sum3_perm l l' : Permutation l l' -> sum3 l = sum3 l'.
Proof.
  induction 1; simpl; auto.
  - now rewrite IHPermutation.
  - now rewrite !add3_assoc, (add3_comm y x).
  - congruence.
Qed.

Lemma fold_left_add3 (g : list nat -> T * T * T) (l : list (list nat)) init :
  fold_left (fun acc axes => add3 T tadd acc (g axes)) l init
  = add3 T tadd init (sum3 (map g l)).
Proof.
  revert init. induction l as [|a l IH]; intros init; simpl.
  - now rewrite add3_zero_r.
  - rewrite IH. now rewrite add3_assoc.
Qed.

Lemma sub_prediction_nil inp : sub_prediction inp [] = fwd inp.
Proof.
  unfold sub_prediction. rewrite flip_nil.
  destruct (fwd inp) as [[? ?] ?]; simpl. now rewrite !flip_nil.
Qed.

(** ** C1
    With [k >= 1] mirror axes, all at most [x.ndim - 3], the method runs
    one forward pass per subset of the (shifted) axes: the unflipped pass
    and one per non-empty subset, [2^k - 1] of them.  It returns for
    translation, mask and latent the sum of the [2^k] sub-predictions
    (each flipped back) divided by [2^k]. *)
Theorem mirror_predict_is_power_set_mean (ma : list nat) (ndim : nat) (inp : T)
  (Hk : ma <> [])
  (Hvalid : (Z.of_nat (list_max ma) <= Z.of_nat ndim - 3)%Z) :
  let axes := map (fun m => m + 2) ma in
  exists combos,
    maybe_mirror_and_predict T tadd tdiv flip fwd (Some ma) ndim inp
    = Ok (div3 T tdiv (sum3 (map (sub_prediction inp) (subseqs axes))) (2 ^ length ma),
          [] :: combos)
    /\ length combos = 2 ^ length ma - 1
    /\ Permutation ([] :: combos) (subseqs axes).
Proof.
  intros axes. exists (axes_combinations ma).
  split; [|split].
  - unfold maybe_mirror_and_predict.
    destruct ma as [|m0 t]; [congruence|].
    rewrite py_max_list_max. cbv beta iota delta [bind].
    apply Z.leb_le in Hvalid. rewrite Hvalid. cbv beta iota delta [assert bind].
    rewrite axes_combinations_length.
    replace (2 ^ length (m0 :: t) - 1 + 1) with (2 ^ length (m0 :: t))
      by (pose proof (Nat.pow_nonzero 2 (length (m0 :: t))); lia).
    do 2 f_equal.
    rewrite (fold_left_add3 (sub_prediction inp)).
    subst axes.
    rewrite <- (sum3_perm _ _ (Permutation_map (sub_prediction inp)
                                 (axes_combinations_power_set (m0 :: t)))).
    cbn [map]. unfold sum3 at 2. cbn [fold_right].
    now rewrite sub_prediction_nil.
  - apply axes_combinations_length.
  - apply axes_combinations_power_set.
Qed.

End Averaging.

(** Witness for C1: integer "tensors", flips negating on an odd number of
    axes, three mirror axes on a 5-d tile. *)
Lemma mirror_predict_is_power_set_mean_witness :
  [0; 1; 2] <> [] /\ Z.le (Z.of_nat (list_max [0; 1; 2])) (Z.sub (Z.of_nat 5) 3) /\
  let flip := fun (axes : list nat) (z : Z) =>
                if Nat.even (length axes) then z else (- z)%Z in
  let fwd := fun z : Z => (z, (2 * z)%Z, (z + 1)%Z) in
  let axes := map (fun m => m + 2) [0; 1; 2] in
  exists combos,
    maybe_mirror_and_predict Z Z.add (fun z n => (z / Z.of_nat n)%Z) flip fwd
      (Some [0; 1; 2]) 5 7%Z
    = Ok (div3 Z (fun z n => (z / Z.of_nat n)%Z)
            (sum3 Z Z.add 0%Z (map (sub_prediction Z flip fwd 7%Z) (subseqs axes)))
            (2 ^ length [0; 1; 2]),
          [] :: combos)
    /\ length combos = 2 ^ length [0; 1; 2] - 1
    /\ Permutation ([] :: combos) (subseqs axes).
Proof.
  split; [discriminate|]. split; [simpl; lia|].
  exact (mirror_predict_is_power_set_mean Z Z.add 0%Z (fun z n => (z / Z.of_nat n)%Z)
           (fun (axes : list nat) (z : Z) => if Nat.even (length axes) then z else (- z)%Z)
           (fun z : Z => (z, (2 * z)%Z, (z + 1)%Z))
           (fun a b c => ltac:(lia)) (fun a b => ltac:(lia)) (fun a => ltac:(lia))
           (fun a => eq_refl) [0; 1; 2] 5 7%Z ltac:(discriminate) ltac:(simpl; lia)).
Defined.

End MirrorFacts.

Module CodesFacts.
Import Codes.

Lemma nth_map_seq_lt (f : nat -> Z) (n i : nat) :
  i < n -> nth i (map f (seq 0 n)) 0%Z = f i.
Proof.
  intros Hi. rewrite nth_indep with (d' := f 0) by (rewrite length_map, length_seq; lia).
  rewrite map_nth, seq_nth by lia. reflexivity.
Qed.

(** A code made of a binary block, a middle block and a flag satisfies the
    layout as soon as its blocks do. *)
Lemma code_layout_of_blocks (n tgt : nat) (is_seg : bool) (src mid : list Z) (flag : Z) :
  length src = n -> length mid = n ->
  (forall i, i < n -> nth i src 0%Z = 0%Z \/ nth i src 0%Z = 1%Z) ->
  (forall j, j < n -> nth j mid 0%Z = if is_seg then 0%Z else if j =? tgt then 1%Z else 0%Z) ->
  flag = (if is_seg then 1%Z else 0%Z) ->
  code_layout n is_seg tgt (src ++ mid ++ [flag]).
Proof.
  intros Hs Hm Hsrc Hmid Hflag. unfold code_layout. repeat split.
  - rewrite !length_app, Hs, Hm. simpl. lia.
  - intros i Hi. rewrite app_nth1 by lia. auto.
  - intros j Hj. rewrite app_nth2 by lia. rewrite Hs.
    replace (n + j - n) with j by lia. rewrite app_nth1 by lia. auto.
  - rewrite app_nth2 by lia. rewrite Hs, app_nth2 by lia. rewrite Hm.
    replace (2 * n - n - n) with 0 by lia. simpl. auto.
Qed.

(** ** C5
    Every fused code the predictor builds has [2 * num_channel + 1] slots:
    a binary first block, then the one-hot target block ([1] exactly at
    [num_channel + tgt]) for a translation code and zeros for a segmentation
    code, then a flag that is [1] exactly for a segmentation code.  This
    holds for the codes of [_internal_maybe_mirror_and_predict], built from
    [target_code = F.one_hot(tgt, num_channel)], whose first block is the
    availability mask, and for the codes of [predict_from_files]. *)
Theorem fused_codes_layout (num_channel tgt : nat) (available_channel : list nat)
  (Htgt : tgt < num_channel) :
  exists target_code,
    one_hot tgt num_channel = Ok target_code
    /\ code_layout num_channel false tgt
         (tsf_tgt_code (tsf_src_code num_channel available_channel) target_code)
    /\ code_layout num_channel true tgt
         (tsf_seg_code (tsf_src_code num_channel available_channel) target_code)
    /\ (forall i, i < num_channel ->
          nth i (tsf_src_code num_channel available_channel) 0%Z
          = if existsb (Nat.eqb i) available_channel then 1%Z else 0%Z)
    /\ code_layout num_channel false tgt (files_tgt_code num_channel tgt)
    /\ code_layout num_channel true tgt (files_seg_code num_channel).
Proof.
  eexists. unfold one_hot. apply Nat.ltb_lt in Htgt as Hb. rewrite Hb.
  assert (Hbin : forall (f : nat -> Z), (forall i, f i = 0%Z \/ f i = 1%Z) ->
            forall i, i < num_channel ->
            nth i (map f (seq 0 num_channel)) 0%Z = 0%Z
            \/ nth i (map f (seq 0 num_channel)) 0%Z = 1%Z).
  { intros f Hf i Hi. rewrite nth_map_seq_lt by exact Hi. apply Hf. }
  split; [reflexivity|]. split; [|split; [|split; [|split]]].
  - unfold tsf_tgt_code. apply code_layout_of_blocks; auto.
    + unfold tsf_src_code. now rewrite length_map, length_seq.
    + now rewrite length_map, length_seq.
    + apply Hbin. intros i. destruct existsb; auto.
    + intros j Hj. now rewrite nth_map_seq_lt.
  - unfold tsf_seg_code. apply code_layout_of_blocks; auto.
    + unfold tsf_src_code. now rewrite length_map, length_seq.
    + now rewrite !length_map, length_seq.
    + apply Hbin. intros i. destruct existsb; auto.
    + intros j Hj. rewrite map_map. now rewrite nth_map_seq_lt.
  - intros i Hi. unfold tsf_src_code. now rewrite nth_map_seq_lt.
  - unfold files_tgt_code. apply code_layout_of_blocks; auto.
    + now rewrite length_map, length_seq.
    + now rewrite length_map, length_seq.
    + apply Hbin. intros i. destruct negb; auto.
    + intros j Hj. now rewrite nth_map_seq_lt.
  - unfold files_seg_code. apply code_layout_of_blocks; try reflexivity.
    all: try (now rewrite length_map, length_seq).
    all: intros i Hi; rewrite nth_map_seq_lt by exact Hi; auto.
Qed.

(** Witness for C5: four channels, target 2, channels 0, 1, 3 available. *)
Lemma fused_codes_layout_witness :
  2 < 4 /\
  exists target_code,
    one_hot 2 4 = Ok target_code
    /\ code_layout 4 false 2 (tsf_tgt_code (tsf_src_code 4 [0; 1; 3]) target_code)
    /\ code_layout 4 true 2 (tsf_seg_code (tsf_src_code 4 [0; 1; 3]) target_code)
    /\ (forall i, i < 4 ->
          nth i (tsf_src_code 4 [0; 1; 3]) 0%Z
          = if existsb (Nat.eqb i) [0; 1; 3] then 1%Z else 0%Z)
    /\ code_layout 4 false 2 (files_tgt_code 4 2)
    /\ code_layout 4 true 2 (files_seg_code 4).
Proof.
  split; [lia|]. apply (fused_codes_layout 4 2 [0; 1; 3]). lia.
Defined.

End CodesFacts.

Module SlidingWindowFacts.
Import SlidingWindow.

Definition oom_msg : string := "CUDA out of memory.".

(** ** C6
    Out of memory while the result arrays are preallocated on the device
    (before the first tile is predicted): the handler's [del] of the unbound
    [prediction_mask] turns the [RuntimeError] into an [UnboundLocalError],
    which [except RuntimeError] does not catch, so no retry with host
    buffers is made. *)
Theorem oom_before_first_tile_not_retried :
  let body := fun d : bool => if d then Raised (RuntimeError oom_msg) 0
                              else Normalised [Fin 1%Z] 1 in
  predict_sliding_window body true Cuda = (Err UnboundLocalError, [true]).
Proof. reflexivity. Qed.

(** An out-of-memory [RuntimeError] raised once a tile has been predicted is
    re-raised by the handler and retried exactly once with host buffers. *)
Lemma runtime_error_after_first_tile_retried_once (body : bool -> body_outcome)
  (msg : string) (calls : nat) :
  0 < calls -> body true = Raised (RuntimeError msg) calls ->
  predict_sliding_window body true Cuda
  = (internal_predict_sliding_window body false, [true; false]).
Proof.
  intros Hc Hb. unfold predict_sliding_window. simpl.
  unfold internal_predict_sliding_window at 1. rewrite Hb.
  unfold except_handler. destruct calls; [lia|]. reflexivity.
Qed.

(** ** C7 (failing input)
    Once a tile has been predicted, an infinite normalised logit makes the
    internal execution on the device raise [RuntimeError]; the caller's
    [except RuntimeError], meant for running out of device memory, catches
    it and reruns the whole sliding window with host buffers, so the
    condition is retried and its result is that of the rerun. *)
Theorem inf_logits_retried_on_host (body : bool -> body_outcome)
  (logits : list fval) (calls : nat)
  (Hc : 0 < calls) (Hinf : existsb is_inf logits = true)
  (Hb : body true = Normalised logits calls) :
  internal_predict_sliding_window body true = Err (RuntimeError inf_msg)
  /\ predict_sliding_window body true Cuda
     = (internal_predict_sliding_window body false, [true; false]).
Proof.
  assert (Hint : internal_predict_sliding_window body true = Err (RuntimeError inf_msg)).
  { unfold internal_predict_sliding_window. rewrite Hb, Hinf.
    unfold except_handler. destruct calls; [lia|]. reflexivity. }
  split; [exact Hint|].
  unfold predict_sliding_window. cbn [andb device_ne_cpu]. rewrite Hint. reflexivity.
Qed.

(** An infinite logit on the device, finite logits on the host: the
    method returns the host logits after two attempts. *)
Lemma inf_logits_retried_on_host_witness :
  let body := fun d : bool => if d then Normalised [Fin 0%Z; PosInf] 4
                              else Normalised [Fin 0%Z; Fin 1%Z] 4 in
  internal_predict_sliding_window body true = Err (RuntimeError inf_msg)
  /\ predict_sliding_window body true Cuda = (Ok [Fin 0%Z; Fin 1%Z], [true; false]).
Proof.
  intros body.
  destruct (inf_logits_retried_on_host body [Fin 0%Z; PosInf] 4) as [H1 H2];
    [lia | reflexivity | reflexivity |].
  split; [exact H1|]. rewrite H2. reflexivity.
Defined.

End SlidingWindowFacts.

Module ManageListsFacts.
Import ManageLists.

Lemma mapM_length {A B} (f : A -> result B) (l : list A) (l' : list B) :
  mapM f l = Ok l' -> length l' = length l.
Proof.
  revert l'. induction l as [|x t IH]; intros l' H; simpl in H.
  - now inversion H.
  - destruct (f x) as [y|e]; simpl in H; [|discriminate].
    destruct (mapM f t) as [ys|e]; simpl in H; [|discriminate].
    inversion H; subst. simpl. now rewrite (IH ys).
Qed.

(** Indexing a list at the positions whose flag is false, in order, selects
    the elements whose partner fails the test. *)
Lemma mapM_index_unflagged {A B} (h : B -> bool) (l : list A) (o : list B) (pre : list A) :
  length l = length o ->
  mapM (py_index (pre ++ l))
       (map fst (filter (fun p => negb (snd p)) (combine (seq (length pre) (length o)) (map h o))))
  = Ok (map fst (filter (fun p => negb (h (snd p))) (combine l o))).
Proof.
  revert o pre. induction l as [|a l IH]; intros o pre Hlen; destruct o as [|b o];
    simpl in Hlen; try discriminate; [reflexivity|].
  simpl. destruct (h b) eqn:Hb; simpl.
  - replace (pre ++ a :: l) with ((pre ++ [a]) ++ l) by (rewrite <- app_assoc; reflexivity).
    replace (S (length pre)) with (length (pre ++ [a])) by (rewrite length_app; simpl; lia).
    apply IH; lia.
  - unfold py_index at 1. rewrite nth_error_app2, Nat.sub_diag by lia. simpl.
    replace (pre ++ a :: l) with ((pre ++ [a]) ++ l) by (rewrite <- app_assoc; reflexivity).
    replace (S (length pre)) with (length (pre ++ [a])) by (rewrite length_app; simpl; lia).
    rewrite IH by lia. reflexivity.
Qed.

Lemma mapM_index_unflagged0 {A B} (h : B -> bool) (l : list A) (o : list B) :
  length l = length o ->
  mapM (py_index l)
       (map fst (filter (fun p => negb (snd p)) (combine (seq 0 (length o)) (map h o))))
  = Ok (map fst (filter (fun p => negb (h (snd p))) (combine l o))).
Proof. apply (mapM_index_unflagged h l o []). Qed.

Lemma filter_combine_self {B} (P : B -> bool) (o : list B) :
  map fst (filter (fun p => P (snd p)) (combine o o)) = filter P o.
Proof.
  induction o as [|b o IH]; simpl; [reflexivity|]. destruct (P b); simpl; now rewrite IH.
Qed.

Lemma map_and_combine {B} (f g : B -> bool) (o : list B) :
  map (fun '(i, j) => i && j) (combine (map f o) (map g o)) = map (fun x => f x && g x) o.
Proof. induction o as [|b o IH]; simpl; [reflexivity|]. now rewrite IH. Qed.

(** ** C8
    With [overwrite = false] and one output prefix per selected case, the
    method keeps exactly the cases whose label output [prefix + file_ending]
    is missing or, when [save_probabilities] holds, whose [prefix + ".npz"]
    archive is missing; the source lists, the output prefixes and the
    previous-stage segmentation paths are filtered alike.  With no output
    prefixes nothing is filtered. *)
Theorem manage_lists_skips_predicted_cases (isfile : string -> bool)
  (file_ending : string) (sources : list (list string)) (out : out_arg)
  (seg_folder : option string) (part_id num_parts : nat) (save_probabilities : bool)
  (sl : list (list string)) (caseids : list string)
  (Hslice : py_slice_step sources part_id num_parts = Ok sl)
  (Hids : mapM (caseid file_ending) sl = Ok caseids)
  (Haligned : forall l, out = OutList l -> length l = length sl) :
  let keep := fun o : string =>
    negb (isfile (o ++ file_ending)%string
          && (if save_probabilities then isfile (o ++ ".npz")%string else true)) in
  let segs := seg_files file_ending seg_folder caseids in
  manage_input_and_output_lists isfile file_ending sources out seg_folder false
    part_id num_parts save_probabilities
  = Ok (match resolve_outputs out caseids with
        | Some o => (map fst (filter (fun p => keep (snd p)) (combine sl o)),
                     Some (filter keep o),
                     map fst (filter (fun p => keep (snd p)) (combine segs o)))
        | None => (sl, None, segs)
        end).
Proof.
  intros keep segs. unfold manage_input_and_output_lists.
  rewrite Hslice. simpl bind. rewrite Hids. cbv beta iota delta [bind].
  pose proof (mapM_length _ _ _ Hids) as Hlen_ids.
  destruct (resolve_outputs out caseids) as [o|] eqn:Hout; [|reflexivity].
  assert (Hlen_o : length o = length sl).
  { destruct out; simpl in Hout; inversion Hout; subst.
    - now rewrite length_map.
    - now apply Haligned. }
  set (h := fun i => isfile (i ++ file_ending)%string
                     && (if save_probabilities then isfile (i ++ ".npz")%string else true)).
  assert (Htmp : (if save_probabilities
                  then map (fun '(i, j) => i && j)
                           (combine (map (fun i => isfile (i ++ file_ending)%string) o)
                                    (map (fun i => isfile (i ++ ".npz")%string) o))
                  else map (fun i => isfile (i ++ file_ending)%string) o) = map h o).
  { unfold h. destruct save_probabilities.
    - apply map_and_combine.
    - apply map_ext. intros i. now rewrite andb_true_r. }
  cbv zeta. rewrite Htmp, length_map.
  rewrite (mapM_index_unflagged0 h o o eq_refl).
  rewrite (mapM_index_unflagged0 h sl o ltac:(lia)).
  assert (Hlen_segs : length segs = length o).
  { unfold segs, seg_files. rewrite length_map. lia. }
  rewrite (mapM_index_unflagged0 h (seg_files file_ending seg_folder caseids) o Hlen_segs).
  cbv beta iota delta [bind]. rewrite (filter_combine_self (fun x => negb (h x))). reflexivity.
Qed.

(** Witness for C8: three cases, the second already predicted, outputs in
    folder "o", probabilities requested. *)
Lemma manage_lists_skips_predicted_cases_witness :
  let isfile := fun s => (String.eqb s "o/b.nii.gz"%string || String.eqb s "o/b.npz"%string)%bool in
  let sources := [["d/a_0000.nii.gz"]; ["d/b_0000.nii.gz"]; ["d/c_0000.nii.gz"]]%string in
  let keep := fun o : string =>
    negb (isfile (o ++ ".nii.gz")%string && isfile (o ++ ".npz")%string) in
  py_slice_step sources 0 1 = Ok sources
  /\ mapM (caseid ".nii.gz"%string) sources = Ok ["a"; "b"; "c"]%string
  /\ (forall l, OutFolder "o"%string = OutList l -> length l = length sources)
  /\ manage_input_and_output_lists isfile ".nii.gz"%string sources (OutFolder "o"%string) None false
       0 1 true
     = Ok (match resolve_outputs (OutFolder "o"%string) ["a"; "b"; "c"]%string with
           | Some o => (map fst (filter (fun p => keep (snd p)) (combine sources o)),
                        Some (filter keep o),
                        map fst (filter (fun p => keep (snd p))
                                   (combine (seg_files ".nii.gz"%string None ["a"; "b"; "c"]%string) o)))
           | None => (sources, None, seg_files ".nii.gz"%string None ["a"; "b"; "c"]%string)
           end).
Proof.
  intros isfile sources keep.
  split; [reflexivity|]. split; [reflexivity|]. split; [discriminate|].
  exact (manage_lists_skips_predicted_cases isfile ".nii.gz"%string sources (OutFolder "o"%string) None
           0 1 true sources ["a"; "b"; "c"]%string eq_refl eq_refl ltac:(discriminate)).
Defined.

(** On that input the second case is the one removed. *)
Example manage_lists_example :
  manage_input_and_output_lists
    (fun s => (String.eqb s "o/b.nii.gz"%string || String.eqb s "o/b.npz"%string)%bool) ".nii.gz"%string
    [["d/a_0000.nii.gz"]; ["d/b_0000.nii.gz"]; ["d/c_0000.nii.gz"]]%string (OutFolder "o"%string) None false
    0 1 true
  = Ok ([["d/a_0000.nii.gz"]; ["d/c_0000.nii.gz"]]%string, Some ["o/a"; "o/c"]%string, [None; None]).
Proof. reflexivity. Qed.

End ManageListsFacts.

Module EncoderFacts.
Import Encoder.

(** ** C9 (counterexample)
    With [latent_space_dim = 4] the secondary convolution has 32 output
    channels, not 8. *)
Lemma encoder_p_does_not_double :
  out_channels (image_encoder_p 4) <> 2 * in_channels (image_encoder_p 4).
Proof. simpl. discriminate. Qed.

(** ** C9 (amended)
    The secondary convolution (kernel 2, stride 2, no padding) maps the
    [latent_space_dim] input channels to [8 * latent_space_dim] output
    channels, one per voxel of each 2x2x2 block. *)
Theorem encoder_p_channels_times_eight (latent_space_dim : nat) :
  in_channels (image_encoder_p latent_space_dim) = latent_space_dim
  /\ out_channels (image_encoder_p latent_space_dim) = 8 * latent_space_dim
  /\ kernel_size (image_encoder_p latent_space_dim) = 2
  /\ stride (image_encoder_p latent_space_dim) = 2
  /\ padding (image_encoder_p latent_space_dim) = 0.
Proof. simpl. repeat split. lia. Qed.

End EncoderFacts.

Module IteratorFacts.
Import Iterator Run.

(** A record whose [ofile] is [None] with at least one channel fails at the
    first [os.makedirs(os.path.join(ofile, ...))] of the target loop. *)
Lemma null_ofile_record_raises (psnr_of : record -> nat -> nat -> R)
  (st : pstate) (rc : record) :
  ofile rc = None -> 1 <= num_channel rc ->
  process_record psnr_of st rc = Err TypeError.
Proof.
  intros Hnone Hn. unfold process_record.
  destruct (num_channel rc) as [|n]; [lia|].
  simpl. unfold target_step at 1. rewrite Hnone. reflexivity.
Qed.

(** ** C3
    A record with [ofile = None] and at least one channel is not returned in
    memory: its processing raises [TypeError] ([os.path.join(None, ...)]),
    whatever the predictor state and the available channels. *)
Theorem null_ofile_record_type_error (psnr_of : record -> nat -> nat -> R)
  (st : pstate) (n : nat) (avail : list nat) :
  process_record psnr_of st
    {| ofile := None; num_channel := S n; available_channel := avail |}
  = Err TypeError.
Proof. apply null_ofile_record_raises; simpl; [reflexivity | lia]. Qed.

(** The failing input of C3 run through the whole method: a predictor
    whose contribution table was set up, one record with [ofile = None],
    two channels, channel 0 available. *)
Lemma null_ofile_run_fails :
  let st := {| one2one_translate_psnr := Some [[[]; []]; [[]; []]]; jobs := [] |} in
  let rc := {| ofile := None; num_channel := 2; available_channel := [0] |} in
  predict_from_data_iterator (fun _ => Ok tt) (fun _ _ _ => 30%R) 2 st [rc] = Err TypeError.
Proof. reflexivity. Qed.


(** ** C10 (failing input)
    On a predictor without [one2one_translate_psnr], a record whose [ofile]
    is [None] makes the method fail with [TypeError] (the
    [os.path.join(None, ...)] of C3, reached before the table is read), not
    with the attribute error of the missing table. *)
Lemma missing_table_null_ofile_type_error :
  let st := {| one2one_translate_psnr := None; jobs := [] |} in
  let rc := {| ofile := None; num_channel := 1; available_channel := [0] |} in
  predict_from_data_iterator (fun _ => Ok tt) (fun _ _ _ => 30%R) 1 st [rc] = Err TypeError.
Proof. reflexivity. Qed.

End IteratorFacts.

Module ContributionFacts.
Import Iterator Contribution.

Lemma nth_upd {A} (l : list A) (i k : nat) (v d : A) :
  i < length l -> nth k (upd l i v) d = if k =? i then v else nth k l d.
Proof.
  revert i k. induction l as [|x t IH]; intros i k Hi; simpl in Hi; [lia|].
  destruct i as [|i], k as [|k]; simpl; try reflexivity.
  apply IH. lia.
Qed.

Lemma length_upd {A} (l : list A) i v : length (upd l i v) = length l.
Proof.
  revert i. induction l as [|x t IH]; intros i; destruct i; simpl; auto.
Qed.

Lemma nth_repeat_lt {A} (x d : A) n k : k < n -> nth k (repeat x n) d = x.
Proof.
  intros Hk. rewrite nth_indep with (d' := x) by (now rewrite repeat_length).
  apply nth_repeat.
Qed.

Lemma foldM_app {A S} (f : S -> A -> result S) l1 l2 s :
  foldM f (l1 ++ l2) s = bind (foldM f l1 s) (foldM f l2).
Proof.
  revert s. induction l1 as [|x t IH]; intros s; simpl; [reflexivity|].
  destruct (f s x); simpl; [apply IH | reflexivity].
Qed.

Lemma foldM_snoc_ok {A S} (f : S -> A -> result S) l x s s1 s2 :
  foldM f l s = Ok s1 -> f s1 x = Ok s2 -> foldM f (l ++ [x]) s = Ok s2.
Proof.
  intros E1 E2. rewrite foldM_app, E1. simpl. rewrite E2. reflexivity.
Qed.

Lemma all_psnr_concat (table : list (list (list R))) :
  all_psnr table = concat (concat table).
Proof.
  unfold all_psnr.
  assert (Hin : forall (p1 : list (list R)) acc,
             fold_left (fun acc p2 => app acc p2) p1 acc = app acc (concat p1)).
  { induction p1 as [|p2 p1 IH]; intros acc; simpl; [now rewrite app_nil_r|].
    rewrite IH. now rewrite app_assoc. }
  assert (Hout : forall acc, fold_left (fun acc p1 => fold_left (fun acc p2 => app acc p2) p1 acc)
                                       table acc = app acc (concat (concat table))).
  { induction table as [|p1 t IH]; intros acc; simpl; [now rewrite app_nil_r|].
    rewrite IH, Hin. rewrite concat_app, app_assoc. reflexivity. }
  now rewrite Hout.
Qed.

Section Table.

Variable N : nat.
Variable table : list (list (list R)).
Hypothesis Hrows : length table = N.
Hypothesis Hcols : forall i, i < N -> length (nth i table []) = N.

(** The matrix [A] after the cells before [(i, m)], in row-major order,
    have been visited. *)
Definition visited (i m : nat) (A : list (list R)) : Prop :=
  length A = N
  /\ (forall a, a < N -> length (nth a A []) = N)
  /\ (forall a b, a < N -> b < N ->
        getA A a b = if (a <? i) || ((a =? i) && (b <? m)) then spec_score table a b else 0%R).

Definition cell_step (A : list (list R)) (i j : nat) : result (list (list R)) :=
  row <- py_index table i ;;
  cell <- py_index row j ;;
  if Nat.eqb (List.length cell) 0 then Ok A
  else Ok (upd A i (upd (nth i A []) j
                      ((nanmean cell - nanmean (all_psnr table)) / (nanstd (all_psnr table) + eps)))%R).

Lemma cell_step_visits i m A :
  i < N -> m < N -> visited i m A ->
  exists A', cell_step A i m = Ok A' /\ visited i (S m) A'.
Proof.
  intros Hi Hm [HlenA [Hrow Hget]]. unfold cell_step, py_index.
  destruct (nth_error table i) as [row|] eqn:Erow;
    [|apply nth_error_None in Erow; lia].
  apply nth_error_nth with (d := []) in Erow as Erow'.
  cbn [bind]. 
  destruct (nth_error row m) as [cell|] eqn:Ecell;
    [|apply nth_error_None in Ecell; subst row;
      specialize (Hcols i Hi); lia].
  apply nth_error_nth with (d := []) in Ecell as Ecell'.
  cbn [bind].
  assert (Hscore : spec_score table i m
                   = match cell with
                     | [] => 0%R
                     | _ => ((nanmean cell - nanmean (concat (concat table)))
                             / (nanstd (concat (concat table)) + eps))%R
                     end).
  { unfold spec_score. rewrite Erow', Ecell'. reflexivity. }
  destruct (Nat.eqb_spec (List.length cell) 0) as [Hnil|Hnil].
  - exists A. split; [reflexivity|]. split; [exact HlenA|]. split; [exact Hrow|].
    intros a b Ha Hb. rewrite Hget by assumption.
    destruct (Nat.ltb_spec a i), (Nat.eqb_spec a i), (Nat.ltb_spec b m), (Nat.ltb_spec b (S m));
      simpl; try reflexivity; try lia.
    subst a. assert (b = m) by lia. subst b.
    rewrite Hscore. destruct cell; [reflexivity|simpl in Hnil; lia].
  - eexists. split; [reflexivity|]. repeat split.
    + now rewrite length_upd.
    + intros a Ha. rewrite nth_upd by lia.
      destruct (a =? i) eqn:E; [|now apply Hrow].
      apply Nat.eqb_eq in E. subst a. rewrite length_upd. now apply Hrow.
    + intros a b Ha Hb. unfold getA. rewrite nth_upd by lia.
      destruct (Nat.eqb_spec a i) as [->|Hai].
      * rewrite nth_upd by (rewrite Hrow; lia).
        destruct (Nat.eqb_spec b m) as [->|Hbm].
        -- destruct (Nat.ltb_spec i i); [lia|]. destruct (Nat.ltb_spec m (S m)); [|lia].
           simpl. rewrite Hscore, all_psnr_concat. destruct cell; [simpl in Hnil; lia|].
           reflexivity.
        -- pose proof (Hget i b Hi Hb) as H. unfold getA in H. rewrite H.
           destruct (Nat.ltb_spec i i); [lia|]. rewrite ?Nat.eqb_refl. simpl.
           destruct (Nat.ltb_spec b m), (Nat.ltb_spec b (S m)); try reflexivity; lia.
      * pose proof (Hget a b Ha Hb) as H. unfold getA in H. rewrite H.
        destruct (Nat.eqb_spec a i); [lia|]. rewrite !andb_false_l. reflexivity.
Qed.


Lemma row_visits i :
  i < N -> forall m A, m <= N -> visited i 0 A ->
  exists A', foldM (fun A j => cell_step A i j) (seq 0 m) A = Ok A' /\ visited i m A'.
Proof.
  intros Hi m. induction m as [|m IH]; intros A Hm HA.
  - exists A. split; [reflexivity|exact HA].
  - destruct (IH A ltac:(lia) HA) as [A1 [E1 H1]].
    destruct (cell_step_visits i m A1 Hi ltac:(lia) H1) as [A2 [E2 H2]].
    exists A2. rewrite seq_S. split; [exact (foldM_snoc_ok _ _ _ _ _ _ E1 E2)|exact H2].
Qed.

Lemma visited_next_row i A : visited i N A -> visited (S i) 0 A.
Proof.
  intros [H1 [H2 H3]]. split; [exact H1|]. split; [exact H2|].
  intros a b Ha Hb. rewrite H3 by assumption.
  destruct (Nat.ltb_spec a i), (Nat.eqb_spec a i), (Nat.ltb_spec b N),
    (Nat.ltb_spec a (S i)), (Nat.eqb_spec a (S i)), (Nat.ltb_spec b 0);
    simpl; try reflexivity; lia.
Qed.

Lemma rows_visit n A :
  n <= N -> visited 0 0 A ->
  exists A', foldM (fun A i => foldM (fun A j => cell_step A i j) (seq 0 N) A) (seq 0 n) A = Ok A'
             /\ visited n 0 A'.
Proof.
  revert A. induction n as [|n IH]; intros A Hn HA.
  - exists A. split; [reflexivity|exact HA].
  - destruct (IH A ltac:(lia) HA) as [A1 [E1 H1]].
    destruct (row_visits n ltac:(lia) N A1 (le_n N) H1) as [A2 [E2 H2]].
    exists A2. rewrite seq_S.
    split; [exact (foldM_snoc_ok _ _ _ _ _ _ E1 E2)|now apply visited_next_row].
Qed.

Lemma visited_initial : visited 0 0 (repeat (repeat 0%R N) N).
Proof.
  split; [apply repeat_length|]. split.
  - intros a Ha. rewrite nth_repeat_lt by exact Ha. apply repeat_length.
  - intros a b Ha Hb. unfold getA. rewrite nth_repeat_lt by exact Ha.
    rewrite nth_repeat_lt by exact Hb.
    destruct (Nat.ltb_spec a 0), (Nat.ltb_spec b 0); simpl; rewrite ?andb_false_r; reflexivity || lia.
Qed.

Lemma build_A_scores :
  exists A, build_A N table = Ok A
            /\ length A = N
            /\ (forall i j, i < N -> j < N -> getA A i j = spec_score table i j).
Proof.
  destruct (rows_visit N _ (le_n N) visited_initial) as [A [E [H1 [_ H3]]]].
  exists A. split; [exact E|]. split; [exact H1|].
  intros i j Hi Hj. rewrite H3 by assumption.
  destruct (Nat.ltb_spec i N); [reflexivity|lia].
Qed.

End Table.

Lemma fold_left_plus (f : nat -> R) l a :
  fold_left (fun acc j => acc + f j)%R l a = (a + sumR (map f l))%R.
Proof.
  revert a. induction l as [|x t IH]; intros a; simpl; [ring|]. rewrite IH. ring.
Qed.

Lemma fold_left_minus (f : nat -> R) l a :
  fold_left (fun acc j => acc - f j)%R l a = (a - sumR (map f l))%R.
Proof.
  revert a. induction l as [|x t IH]; intros a; simpl; [ring|]. rewrite IH. ring.
Qed.

(** C4: for an N x N table of PSNR lists, the score matrix [A] built at the
    end of a run has, in every cell with at least one observation,
    (pair mean - global mean) / (global deviation + 1e-9) and 0 in every
    empty cell ([spec_score]); the row reported for channel [i] is
    [(i, (1/N) * sum_j A[i][j], -(1/N) * sum_j A[j][i])]. *)
Theorem synthesis_contribution_scores (N : nat) (table : list (list (list R)))
  (Hrows : length table = N)
  (Hcols : forall i, i < N -> length (nth i table []) = N) :
  exists A,
    build_A N table = Ok A
    /\ (forall i j, i < N -> j < N -> getA A i j = spec_score table i j)
    /\ synthesis_contribution N table
       = Ok (map (fun i =>
                    (i,
                     (1 / INR N * sumR (map (fun j => getA A i j) (seq 0 N)))%R,
                     (- (1 / INR N) * sumR (map (fun j => getA A j i) (seq 0 N)))%R))
                 (seq 0 N)).
Proof.
  destruct (build_A_scores N table Hrows Hcols) as [A [E [_ Hget]]].
  exists A. split; [exact E|]. split; [exact Hget|].
  unfold synthesis_contribution. rewrite E. cbn [bind]. f_equal.
  unfold sbsc_of. apply map_ext. intros i.
  rewrite fold_left_plus, fold_left_minus.
  change (fun j => getA A i j) with (getA A i). unfold Rdiv. f_equal; [f_equal|]; ring.
Qed.

Lemma synthesis_contribution_scores_witness :
  length [[[30; 32]; []]; [[28]; [31]]]%R = 2
  /\ (forall i, i < 2 -> length (nth i [[[30; 32]; []]; [[28]; [31]]]%R []) = 2)
  /\ exists A,
       build_A 2 [[[30; 32]; []]; [[28]; [31]]]%R = Ok A
       /\ (forall i j, i < 2 -> j < 2 -> getA A i j = spec_score [[[30; 32]; []]; [[28]; [31]]]%R i j)
       /\ synthesis_contribution 2 [[[30; 32]; []]; [[28]; [31]]]%R
          = Ok (map (fun i =>
                       (i,
                        (1 / INR 2 * sumR (map (fun j => getA A i j) (seq 0 2)))%R,
                        (- (1 / INR 2) * sumR (map (fun j => getA A j i) (seq 0 2)))%R))
                    (seq 0 2)).
Proof.
  assert (Hc : forall i, i < 2 -> length (nth i [[[30; 32]; []]; [[28]; [31]]]%R []) = 2).
  { intros i Hi. destruct i as [|[|i]]; [reflexivity|reflexivity|lia]. }
  split; [reflexivity|]. split; [exact Hc|].
  exact (synthesis_contribution_scores 2 [[[30; 32]; []]; [[28]; [31]]]%R eq_refl Hc).
Defined.

End ContributionFacts.

Module SingleArrayFacts.
Import SingleArray.

(** C2: whatever preprocessing and the prediction body do,
    [predict_single_npy_array] never exports nor returns a segmentation:
    it calls [predict_logits_from_preprocessed_data] with [data] alone, so
    binding its arguments raises [TypeError] for the missing [target_code]
    as soon as preprocessing has succeeded. *)
Theorem single_npy_array_missing_target_code
  (Img Props Dct Tensor Seg Probs Ret : Type)
  (preprocess : Img -> option Img -> Props -> option string -> result Dct)
  (dct_data : Dct -> Tensor) (dct_properties : Dct -> Props)
  (predict_logits_body : list Tensor -> result (Tensor * Tensor * Tensor))
  (export : Tensor -> Props -> string -> bool -> result unit)
  (convert : Tensor -> Props -> bool -> result Ret)
  (ret_pair : Ret -> result (Seg * Probs))
  (input_image : Img) (image_properties : Props) (seg_prev : option Img)
  (output_file_truncated : option string) (save_or_return_probabilities : bool) :
  predict_single_npy_array Img Props Dct Tensor Seg Probs Ret preprocess dct_data
    dct_properties predict_logits_body export convert ret_pair input_image
    image_properties seg_prev output_file_truncated save_or_return_probabilities
  = match preprocess input_image seg_prev image_properties output_file_truncated with
    | Ok _ => Err TypeError
    | Err e => Err e
    end
  /\ forall o,
       predict_single_npy_array Img Props Dct Tensor Seg Probs Ret preprocess dct_data
         dct_properties predict_logits_body export convert ret_pair input_image
         image_properties seg_prev output_file_truncated save_or_return_probabilities
       <> Ok o.
Proof.
  unfold predict_single_npy_array.
  destruct (preprocess input_image seg_prev image_properties output_file_truncated);
    split; try reflexivity; intros o; discriminate.
Qed.

End SingleArrayFacts.

Module PyStrFacts.
Import Iterator PyStr.
Local Open Scope string_scope.

Lemma str_app_nil (s : string) : (s ++ "")%string = s.
Proof. induction s as [|c s IH]; simpl; [reflexivity|now rewrite IH]. Qed.

Lemma str_app_assoc (a b c : string) : ((a ++ b) ++ c)%string = (a ++ (b ++ c))%string.
Proof. induction a as [|x a IH]; simpl; [reflexivity|now rewrite IH]. Qed.

Lemma int_body_uint (u : Decimal.uint) (acc : nat) :
  int_body acc true (NilEmpty.string_of_uint u) = Some (Nat.of_uint_acc u acc).
Proof.
  revert acc. induction u; intros acc; simpl; try reflexivity;
    rewrite IHu; f_equal; f_equal; rewrite Nat.tail_mul_spec; lia.
Qed.

(** [int(str(n)) == n] *)
Lemma py_int_str_of_nat (n : nat) : py_int (str_of_nat n) = Ok (Z.of_nat n).
Proof.
  pose proof (DecimalNat.Unsigned.of_to n) as Hn. unfold Nat.of_uint in Hn.
  unfold str_of_nat, py_int.
  destruct (Nat.to_uint n) as [| u | u | u | u | u | u | u | u | u | u] eqn:E;
    [simpl in Hn; subst n; discriminate E| ..].
  all: simpl; unfold int_of_body; simpl; rewrite int_body_uint;
       rewrite <- Hn; simpl; rewrite ?Nat.tail_mul_spec; reflexivity.
Qed.

Lemma last_segment_acc_digits (u : Decimal.uint) (acc : string) :
  last_segment_acc (NilEmpty.string_of_uint u) acc = (acc ++ NilEmpty.string_of_uint u)%string.
Proof.
  revert acc. induction u; intros acc; simpl;
    [now rewrite str_app_nil | rewrite IHu; now rewrite str_app_assoc ..].
Qed.

Lemma last_segment_fold_name (n : nat) :
  last_segment ("fold_" ++ str_of_nat n) = str_of_nat n.
Proof. unfold last_segment. simpl. apply last_segment_acc_digits. Qed.

Lemma fold_name_not_all (n : nat) : String.eqb ("fold_" ++ str_of_nat n) "fold_all" = false.
Proof. unfold str_of_nat. destruct (Nat.to_uint n); reflexivity. Qed.

End PyStrFacts.

Module FoldsFacts.
Import ManageLists Iterator PyStr Folds PyStrFacts.
Local Open Scope string_scope.

(** For sub-folders named [fold_<n>] ([Some n]) or [fold_all] ([None]),
    [auto_detect_available_folds] returns, in listing order, the number [n]
    of every [fold_<n>] folder holding the checkpoint; [fold_all] is never
    returned. *)
Theorem auto_detect_folds_round_trip (isfile : string -> bool) (dir ckpt : string)
  (ns : list (option nat)) :
  auto_detect_available_folds isfile dir ckpt
    (map (fun o => match o with Some n => "fold_" ++ str_of_nat n | None => "fold_all" end) ns)
  = Ok (flat_map (fun o => match o with
                           | Some n => if isfile (join3 dir ("fold_" ++ str_of_nat n) ckpt)
                                       then [Z.of_nat n] else []
                           | None => []
                           end) ns).
Proof.
  unfold auto_detect_available_folds.
  induction ns as [|[n|] ns IH]; [reflexivity| |].
  - cbn [map filter flat_map]. rewrite fold_name_not_all. cbn [negb filter].
    destruct (isfile (join3 dir ("fold_" ++ str_of_nat n) ckpt)); [|exact IH].
    cbn [mapM app]. rewrite last_segment_fold_name, py_int_str_of_nat. cbn [bind].
    rewrite IH. reflexivity.
  - cbn [map filter flat_map]. rewrite String.eqb_refl. exact IH.
Qed.

Section Init.

Variables W J PM CM Net : Type.
Variable isfile : string -> bool.
Variable subdirs_fold : string -> list string.
Variable load_json : string -> result J.
Variable plans_manager_of : J -> PM.
Variable torch_load : string -> result (checkpoint W).
Variable get_configuration : PM -> string -> result CM.
Variable build_network : string -> PM -> CM -> J -> result Net.
Variable maybe_compile : Net -> Net.

Lemma load_folds_after_first (dir ckpt : string) (ckf : fold -> checkpoint W) :
  forall fs k acc, 0 < k ->
  (forall f, In f fs -> exists f', fold_key f = Ok f'
                                  /\ torch_load (join3 dir (fold_dir f') ckpt) = Ok (ckf f)) ->
  foldM (load_fold torch_load dir ckpt) (combine (seq k (length fs)) fs) acc
  = Ok (fst acc, app (snd acc) (map (fun f => ck_network_weights (ckf f)) fs)).
Proof.
  induction fs as [|f fs IH]; intros k acc Hk Hck; simpl.
  - now rewrite app_nil_r, <- surjective_pairing.
  - destruct (Hck f (or_introl eq_refl)) as [f' [Hkey Hload]].
    unfold load_fold at 1. rewrite Hkey. simpl. rewrite Hload. simpl.
    destruct k as [|k]; [lia|]. simpl.
    rewrite IH by (lia || (intros g Hg; apply Hck; now right)). simpl.
    now rewrite <- app_assoc.
Qed.

(** Initialising from a list of folds loads one checkpoint per fold, in
    the order given: [list_of_parameters] holds their weights in that
    order, while the trainer name, the configuration and the allowed
    mirroring axes come from the first fold's checkpoint only. *)
Theorem initialize_parameters_in_fold_order (dir ckpt : string) (f0 : fold) (rest : list fold)
  (ckf : fold -> checkpoint W) (dj pl : J) (cm : CM) (net : Net)
  (Hdj : load_json (path_join dir "dataset.json") = Ok dj)
  (Hpl : load_json (path_join dir "plans.json") = Ok pl)
  (Hck : forall f, In f (f0 :: rest) ->
           exists f', fold_key f = Ok f' /\ torch_load (join3 dir (fold_dir f') ckpt) = Ok (ckf f))
  (Hcm : get_configuration (plans_manager_of pl) (ck_configuration (ckf f0)) = Ok cm)
  (Hnet : build_network (ck_trainer_name (ckf f0)) (plans_manager_of pl) cm dj = Ok net) :
  exists st,
    initialize_from_trained_model_folder isfile subdirs_fold load_json plans_manager_of
      torch_load get_configuration build_network maybe_compile dir (FoldsSeq (f0 :: rest)) ckpt
    = Ok st
    /\ list_of_parameters st = map (fun f => ck_network_weights (ckf f)) (f0 :: rest)
    /\ trainer_name st = ck_trainer_name (ckf f0)
    /\ allowed_mirroring_axes st = ck_inference_allowed_mirroring_axes (ckf f0)
    /\ network st = maybe_compile net.
Proof.
  unfold initialize_from_trained_model_folder. cbn [bind]. rewrite Hdj. cbn [bind].
  rewrite Hpl. cbn [bind].
  destruct (Hck f0 (or_introl eq_refl)) as [f' [Hkey Hload]].
  cbn [length seq combine foldM]. unfold load_fold at 1. rewrite Hkey. cbn [bind].
  rewrite Hload. cbn [bind Nat.eqb fst snd].
  rewrite (load_folds_after_first dir ckpt ckf rest 1) by (lia || (intros g Hg; apply Hck; now right)).
  cbn [bind fst snd]. rewrite Hcm. cbn [bind]. rewrite Hnet. cbn [bind].
  eexists. split; [reflexivity|]. repeat split.
Qed.

(** With no fold to load, either given as an empty list or because no
    [fold_*] folder other than [fold_all] holds the checkpoint, the method
    fails with [UnboundLocalError] ([configuration_name] is never bound)
    once the two JSON files are read. *)
Theorem initialize_without_folds_unbound (dir ckpt : string) (dj pl : J)
  (Hdj : load_json (path_join dir "dataset.json") = Ok dj)
  (Hpl : load_json (path_join dir "plans.json") = Ok pl)
  (Hnone : forall i, In i (subdirs_fold dir) ->
             i = "fold_all" \/ isfile (join3 dir i ckpt) = false) :
  initialize_from_trained_model_folder isfile subdirs_fold load_json plans_manager_of
    torch_load get_configuration build_network maybe_compile dir (FoldsSeq []) ckpt
  = Err UnboundLocalError
  /\ initialize_from_trained_model_folder isfile subdirs_fold load_json plans_manager_of
       torch_load get_configuration build_network maybe_compile dir FoldsNone ckpt
     = Err UnboundLocalError.
Proof.
  assert (Hauto : auto_detect_available_folds isfile dir ckpt (subdirs_fold dir) = Ok []).
  { unfold auto_detect_available_folds.
    induction (subdirs_fold dir) as [|i l IH]; [reflexivity|].
    simpl. destruct (Hnone i (or_introl eq_refl)) as [->|Hf].
    - simpl. apply IH. intros j Hj. apply Hnone. now right.
    - destruct (negb (String.eqb i "fold_all")); simpl; [rewrite Hf|]; apply IH;
        intros j Hj; apply Hnone; now right. }
  unfold initialize_from_trained_model_folder. split.
  - cbn [bind]. rewrite Hdj. cbn [bind]. rewrite Hpl. reflexivity.
  - rewrite Hauto. cbn [bind map]. rewrite Hdj. cbn [bind]. rewrite Hpl. reflexivity.
Qed.

End Init.

Lemma initialize_parameters_in_fold_order_witness :
  exists st,
    initialize_from_trained_model_folder (W := nat) (J := unit) (PM := unit) (CM := unit)
      (Net := unit) (fun _ => true) (fun _ => []) (fun _ => Ok tt) (fun _ => tt)
      (fun path => Ok (mk_checkpoint "nnSeq2SeqTrainer" "3d_fullres" None
                         (if String.eqb path "m/fold_all/c.pth" then 7 else 3)))
      (fun _ _ => Ok tt) (fun _ _ _ _ => Ok tt) (fun n => n)
      "m" (FoldsSeq [FoldStr "all"; FoldStr "1"]) "c.pth" = Ok st
    /\ list_of_parameters st = [7; 3].
Proof.
  set (ckf := fun f => mk_checkpoint "nnSeq2SeqTrainer" "3d_fullres" None
                         (match f with FoldStr "all" => 7 | _ => 3 end)).
  destruct (initialize_parameters_in_fold_order nat unit unit unit unit (fun _ => true)
              (fun _ => []) (fun _ => Ok tt) (fun _ => tt)
              (fun path => Ok (mk_checkpoint "nnSeq2SeqTrainer" "3d_fullres" None
                                 (if String.eqb path "m/fold_all/c.pth" then 7 else 3)))
              (fun _ _ => Ok tt) (fun _ _ _ _ => Ok tt) (fun n => n)
              "m" "c.pth" (FoldStr "all") [FoldStr "1"] ckf tt tt tt tt
              eq_refl eq_refl) as [st [H1 [H2 _]]].
  - intros f [<-|[<-|[]]]; eexists; split; reflexivity.
  - reflexivity.
  - reflexivity.
  - exists st. split; [exact H1|]. rewrite H2. reflexivity.
Defined.

Lemma initialize_without_folds_unbound_witness :
  initialize_from_trained_model_folder (W := nat) (J := unit) (PM := unit) (CM := unit)
    (Net := unit) (fun _ => true) (fun _ => ["fold_all"]) (fun _ => Ok tt) (fun _ => tt)
    (fun _ => Err IndexError) (fun _ _ => Ok tt) (fun _ _ _ _ => Ok tt) (fun n => n)
    "m" FoldsNone "c.pth"
  = Err UnboundLocalError.
Proof.
  refine (proj2 (initialize_without_folds_unbound nat unit unit unit unit (fun _ => true)
            (fun _ => ["fold_all"]) (fun _ => Ok tt) (fun _ => tt) (fun _ => Err IndexError)
            (fun _ _ => Ok tt) (fun _ _ _ _ => Ok tt) (fun n => n) "m" "c.pth" tt tt
            eq_refl eq_refl _)).
  intros i [<-|[]]. now left.
Defined.

End FoldsFacts.

Module MirrorAxesFacts.
Import Mirror MirrorFacts.

(** [_internal_maybe_mirror_and_predict] refuses mirror axes before any
    flipped pass: an empty list of axes raises [ValueError] ([max] of an
    empty sequence) and an axis beyond [x.ndim - 3] fails the assertion. *)
Theorem maybe_mirror_rejects_bad_axes (T : Type) (tadd : T -> T -> T) (tdiv : T -> nat -> T)
  (flip : list nat -> T -> T) (fwd : T -> T * T * T) (ma : list nat) (ndim : nat) (inp : T)
  (Hbad : ma = [] \/ exists m, In m ma /\ (Z.of_nat ndim - 3 < Z.of_nat m)%Z) :
  maybe_mirror_and_predict T tadd tdiv flip fwd (Some ma) ndim inp
  = Err (match ma with [] => ValueError | _ => AssertionError end).
Proof.
  destruct ma as [|x t]; [reflexivity|].
  destruct Hbad as [Hnil|[m [Hin Hm]]]; [discriminate Hnil|].
  unfold maybe_mirror_and_predict. rewrite py_max_list_max. cbn [bind].
  assert (Hle : m <= list_max (x :: t)).
  { pose proof (proj1 (list_max_le (x :: t) (list_max (x :: t))) (le_n _)) as HF.
    rewrite Forall_forall in HF. exact (HF m Hin). }
  replace (Z.leb (Z.of_nat (list_max (x :: t))) (Z.of_nat ndim - 3)) with false
    by (symmetry; apply Z.leb_gt; lia).
  reflexivity.
Qed.

Lemma maybe_mirror_rejects_bad_axes_witness :
  maybe_mirror_and_predict nat Nat.add Nat.div (fun _ t => t) (fun t => (t, t, t))
    (Some [1; 5]) 5 0 = Err AssertionError.
Proof.
  exact (maybe_mirror_rejects_bad_axes nat Nat.add Nat.div (fun _ t => t) (fun t => (t, t, t))
           [1; 5] 5 0 (or_intror (ex_intro _ 5 (conj (or_intror (or_introl eq_refl))
                                                   (ltac:(lia) : (Z.of_nat 5 - 3 < Z.of_nat 5)%Z))))).
Defined.

End MirrorAxesFacts.

Module PredictorFacts.
Import SlidingWindow Predictor.

(** A predictor built for a device other than CUDA has
    [perform_everything_on_device] off whatever was asked, so
    [predict_sliding_window_return_logits] runs the internal prediction
    exactly once, on the host ([do_on_device = False]), and never retries. *)
Theorem non_cuda_predictor_single_host_attempt (body : bool -> body_outcome) (tss : R)
  (ug um perform : bool) (dev : device) (v vp at_ : bool) (Hdev : dev <> Cuda) :
  predict_sliding_window body
    (perform_everything_on_device (nnSeq2SeqPredictor_init tss ug um perform dev v vp at_)) dev
  = (internal_predict_sliding_window body false, [false]).
Proof. destruct dev; [congruence | reflexivity | reflexivity]. Qed.

Lemma non_cuda_predictor_single_host_attempt_witness :
  predict_sliding_window (fun d => if d then Raised (RuntimeError "oom") 0 else Normalised [Fin 1] 1)
    (perform_everything_on_device (nnSeq2SeqPredictor_init 0.5 true true true Mps false false true))
    Mps
  = (Ok [Fin 1], [false]).
Proof.
  exact (non_cuda_predictor_single_host_attempt
           (fun d => if d then Raised (RuntimeError "oom") 0 else Normalised [Fin 1] 1)
           0.5 true true true Mps false false true (ltac:(discriminate) : Mps <> Cuda)).
Defined.

End PredictorFacts.

Module EntryPointFacts.
Import SlidingWindow Mirror Predictor Folds PyStr EntryPoint.
Local Open Scope string_scope.

Lemma parse_device_ok (d : string) :
  (exists dev, parse_device d = Ok dev) <-> In d ["cpu"; "cuda"; "mps"].
Proof.
  unfold parse_device, assert.
  destruct (existsb (String.eqb d) ["cpu"; "cuda"; "mps"]) eqn:E; cbn [bind].
  - split; [intros _ | eauto].
    apply existsb_exists in E as [x [Hx Heq]]. apply String.eqb_eq in Heq. now subst.
  - split; [intros [dev H]; discriminate H | intros Hin; exfalso].
    rewrite (proj2 (existsb_exists _ _) (ex_intro _ d (conj Hin (String.eqb_refl d)))) in E.
    discriminate E.
Qed.

Lemma parse_device_cuda (d : string) (dev : device) :
  parse_device d = Ok dev -> is_cuda dev = String.eqb d "cuda".
Proof.
  unfold parse_device, assert.
  destruct (existsb (String.eqb d) ["cpu"; "cuda"; "mps"]); cbn [bind]; [|discriminate].
  intros H. injection H as <-.
  destruct (String.eqb_spec d "cpu") as [->|_]; [reflexivity|].
  destruct (String.eqb d "cuda"); reflexivity.
Qed.

Ltac entry_ok H :=
  repeat match type of H with
  | bind ?m _ = Ok _ =>
      let x := fresh "x" in let E := fresh "E" in
      destruct m as [x|?] eqn:E; cbn [bind] in H; [|discriminate H]
  end.

(** [predict_entry_point] returns a launch exactly when the folds parse,
    [get_output_folder] finds the model folder, the output folder can be
    made, [part_id < num_parts] and the device is one of [cpu], [cuda],
    [mps]; the predictor it builds works on the device only for [cuda]. *)
Theorem entry_point_validation (mk : string -> result unit)
  (gof : string -> string -> string -> string -> result string) (a : cli_args) :
  ((exists l, predict_entry_point mk gof a = Ok l) <->
     ((exists fs, parse_folds (arg_f a) = Ok fs)
      /\ (exists mf, gof (arg_d a) (arg_tr a) (arg_p a) (arg_c a) = Ok mf)
      /\ mk (arg_o a) = Ok tt
      /\ (arg_part_id a < arg_num_parts a)%Z /\ In (arg_device a) ["cpu"; "cuda"; "mps"]))
  /\ (forall l, predict_entry_point mk gof a = Ok l ->
        perform_everything_on_device (l_predictor l) = String.eqb (arg_device a) "cuda").
Proof.
  split.
  - split.
    + intros [l H]. unfold predict_entry_point, assert in H. entry_ok H.
      destruct x1. split; [eauto|]. split; [eauto|]. split; [reflexivity|].
      destruct (Z.ltb_spec (arg_part_id a) (arg_num_parts a)); [|discriminate E2].
      split; [assumption|]. apply parse_device_ok. eauto.
    + intros [[fs Hf] [[mf Hg] [Hmk [Hlt Hin]]]].
      apply parse_device_ok in Hin as [dev Hdev].
      unfold predict_entry_point, assert. rewrite Hf. cbn [bind]. rewrite Hg. cbn [bind].
      rewrite Hmk. cbn [bind].
      destruct (Z.ltb_spec (arg_part_id a) (arg_num_parts a)); [|lia]. cbn [bind].
      rewrite Hdev. cbn [bind]. eauto.
  - intros l H. unfold predict_entry_point, assert in H. entry_ok H.
    injection H as <-. simpl. rewrite (parse_device_cuda _ _ E3).
    destruct (String.eqb (arg_device a) "cuda"); reflexivity.
Qed.

(** [--disable_tta] of [predict_entry_point] is a [store_true] flag whose
    default is [True], so the predictor it builds never mirrors: whatever
    mirroring axes the checkpoint allows, [_internal_maybe_mirror_and_predict]
    runs the network once, on the unflipped input. *)
Theorem entry_point_never_mirrors (mk : string -> result unit)
  (gof : string -> string -> string -> string -> result string) (a : cli_args) (l : launch)
  (H : predict_entry_point mk gof a = Ok l)
  (T : Type) (tadd : T -> T -> T) (tdiv : T -> nat -> T) (flip : list nat -> T -> T)
  (fwd : T -> T * T * T) (allowed : option (list nat)) (ndim : nat) (inp : T) :
  use_mirroring (l_predictor l) = false
  /\ maybe_mirror_and_predict T tadd tdiv flip fwd (mirror_axes_of (l_predictor l) allowed)
       ndim inp = Ok (fwd inp, [[]]).
Proof.
  unfold predict_entry_point, assert in H. entry_ok H. injection H as <-.
  assert (Hm : use_mirroring (nnSeq2SeqPredictor_init (arg_step_size a) true
                 (negb (store_true (disable_tta_flag a) true)) true x3 (verbose_flag a)
                 (verbose_flag a) (negb (disable_progress_bar_flag a))) = false)
    by (now destruct (disable_tta_flag a)).
  cbn [l_predictor]. split; [exact Hm|].
  unfold mirror_axes_of. rewrite Hm. reflexivity.
Qed.

(** [predict_entry_point_modelfolder], by contrast, declares
    [--disable_tta] with [default=False]: its predictor mirrors exactly when
    the flag is not given, and it always runs as part [0] of [1]. *)
Theorem modelfolder_honours_disable_tta (mk : string -> result unit) (a : cli_args)
  (l : launch) (H : predict_entry_point_modelfolder mk a = Ok l) :
  use_mirroring (l_predictor l) = negb (disable_tta_flag a)
  /\ l_num_parts l = 1%Z /\ l_part_id l = 0%Z.
Proof.
  unfold predict_entry_point_modelfolder in H. entry_ok H. injection H as <-.
  simpl. now destruct (disable_tta_flag a).
Qed.

Lemma entry_point_never_mirrors_witness :
  exists l,
    predict_entry_point (fun _ => Ok tt) (fun d tr p c => Ok (d ++ "/" ++ tr ++ "__" ++ p ++ "__" ++ c))
      {| arg_i := "in"; arg_o := "out"; arg_m := ""; arg_d := "Dataset001";
         arg_c := "3d_fullres"; arg_p := "nnUNetPlans"; arg_tr := "nnSeq2SeqTrainer";
         arg_f := Some ["0"; "all"]; arg_step_size := 0.5; disable_tta_flag := false;
         verbose_flag := false; save_probabilities_flag := false;
         continue_prediction_flag := false; arg_chk := "checkpoint_final.pth";
         arg_npp := 3; arg_nps := 3; arg_prev_stage_predictions := None;
         arg_num_parts := 1; arg_part_id := 0; arg_device := "cuda";
         disable_progress_bar_flag := false |} = Ok l
    /\ maybe_mirror_and_predict nat Nat.add Nat.div (fun _ t => t) (fun t => (t, t, t))
         (mirror_axes_of (l_predictor l) (Some [0; 1; 2])) 5 4 = Ok ((4, 4, 4), [[]]).
Proof.
  match goal with
  | |- exists l, predict_entry_point ?mk ?gof ?a = Ok l /\ _ =>
      eexists; split; [reflexivity|];
      exact (proj2 (entry_point_never_mirrors mk gof a _ eq_refl nat Nat.add Nat.div
                      (fun _ t => t) (fun t => (t, t, t)) (Some [0; 1; 2]) 5 4))
  end.
Defined.

Lemma modelfolder_honours_disable_tta_witness :
  exists l,
    predict_entry_point_modelfolder (fun _ => Ok tt)
      {| arg_i := "in"; arg_o := "out"; arg_m := "model"; arg_d := "";
         arg_c := ""; arg_p := ""; arg_tr := "";
         arg_f := None; arg_step_size := 0.5; disable_tta_flag := false;
         verbose_flag := false; save_probabilities_flag := false;
         continue_prediction_flag := false; arg_chk := "checkpoint_final.pth";
         arg_npp := 3; arg_nps := 3; arg_prev_stage_predictions := None;
         arg_num_parts := 1; arg_part_id := 0; arg_device := "cpu";
         disable_progress_bar_flag := false |} = Ok l
    /\ use_mirroring (l_predictor l) = true.
Proof.
  match goal with
  | |- exists l, predict_entry_point_modelfolder ?mk ?a = Ok l /\ _ =>
      eexists; split; [reflexivity|];
      exact (proj1 (modelfolder_honours_disable_tta mk a _ eq_refl))
  end.
Defined.

End EntryPointFacts.

Module EnsembleFacts.
Import Contribution Ensemble.
Local Open Scope R_scope.

Section Folds.

Variable P : Type.
Variable load_state_dict : P -> result unit.
Variable sliding_window : P -> result (R * R * R).

Lemma last_cons_default (x : P) (l : list P) (d : P) : last (x :: l) d = last l x.
Proof.
  revert x d. induction l as [|y l IH]; intros x d; [reflexivity|].
  change (last (x :: y :: l) d) with (last (y :: l) d). rewrite IH. symmetry. apply IH.
Qed.

Lemma ensemble_step_threads (acc : result (option (R * R * R)) * torch_state P) (p : P) :
  num_threads (snd (ensemble_step P load_state_dict sliding_window acc p))
  = num_threads (snd acc).
Proof.
  unfold ensemble_step. destruct (fst acc) as [q|e]; [|reflexivity].
  destruct (load_state_dict p); [|reflexivity].
  destruct (sliding_window p); reflexivity.
Qed.

Lemma ensemble_fold_threads (ps : list P) :
  forall acc, num_threads (snd (fold_left (ensemble_step P load_state_dict sliding_window) ps acc))
              = num_threads (snd acc).
Proof.
  induction ps as [|p ps IH]; intros acc; [reflexivity|]. simpl. rewrite IH.
  apply ensemble_step_threads.
Qed.

Lemma ensemble_fold_sum (fp fm fl : P -> R) (ps : list P)
  (Hload : forall p, In p ps -> load_state_dict p = Ok tt)
  (Hsw : forall p, In p ps -> sliding_window p = Ok (fp p, fm p, fl p)) :
  forall q1 q2 q3 n p0,
  fold_left (ensemble_step P load_state_dict sliding_window) ps
    (Ok (Some (q1, q2, q3)), mk_torch_state n (Some p0))
  = (Ok (Some (q1 + sumR (map fp ps), q2 + sumR (map fm ps), q3 + sumR (map fl ps))),
     mk_torch_state n (Some (last ps p0))).
Proof.
  induction ps as [|p ps IH]; intros q1 q2 q3 n p0.
  - simpl. repeat f_equal; ring.
  - rewrite last_cons_default. cbn [fold_left map].
    unfold ensemble_step at 2. cbn [fst snd].
    rewrite (Hload p (or_introl eq_refl)), (Hsw p (or_introl eq_refl)). cbn [add3 num_threads].
    rewrite IH by (intros; (apply Hload || apply Hsw); now right).
    unfold sumR; cbn [fold_right]. rewrite !Rplus_assoc. reflexivity.
Qed.

End Folds.

(** When every fold's weights load and every fold's sliding-window
    prediction succeeds, [predict_logits_from_preprocessed_data] returns the
    mean of the per-fold predictions (no division for a single fold), leaves
    the network holding the last fold's weights and restores the thread
    count. *)
Theorem ensemble_is_mean_of_folds (P : Type) (load_state_dict : P -> result unit)
  (sliding_window : P -> result (R * R * R)) (ts : torch_state P) (p0 : P) (rest : list P)
  (fp fm fl : P -> R)
  (Hload : forall p, In p (p0 :: rest) -> load_state_dict p = Ok tt)
  (Hsw : forall p, In p (p0 :: rest) -> sliding_window p = Ok (fp p, fm p, fl p)) :
  predict_logits_from_preprocessed_data P load_state_dict sliding_window ts (Some (p0 :: rest))
  = (Ok (sumR (map fp (p0 :: rest)) / INR (List.length (p0 :: rest)),
         sumR (map fm (p0 :: rest)) / INR (List.length (p0 :: rest)),
         sumR (map fl (p0 :: rest)) / INR (List.length (p0 :: rest))),
     mk_torch_state (num_threads ts) (Some (last (p0 :: rest) p0))).
Proof.
  unfold predict_logits_from_preprocessed_data. cbn [fold_left].
  unfold ensemble_step at 2. cbn [fst snd].
  rewrite (Hload p0 (or_introl eq_refl)), (Hsw p0 (or_introl eq_refl)).
  rewrite (ensemble_fold_sum P load_state_dict sliding_window fp fm fl rest)
    by (intros; (apply Hload || apply Hsw); now right).
  rewrite last_cons_default. cbn [loaded].
  destruct rest as [|p1 rest]; cbn [List.length Nat.ltb Nat.leb]; simpl.
  - unfold Rdiv. rewrite Rinv_1, !Rmult_1_r. reflexivity.
  - reflexivity.
Qed.

(** [predict_logits_from_preprocessed_data] caps the thread count at 8
    and restores it only on success: after any exception the count stays
    capped.  Before initialisation ([list_of_parameters] is [None]) it
    raises [TypeError]; with no fold at all it raises [AttributeError]
    ([None.to('cpu')]). *)
Theorem ensemble_threads_and_errors (P : Type) (load_state_dict : P -> result unit)
  (sliding_window : P -> result (R * R * R)) (ts : torch_state P) (lp : option (list P)) :
  num_threads (snd (predict_logits_from_preprocessed_data P load_state_dict sliding_window ts lp))
  = match fst (predict_logits_from_preprocessed_data P load_state_dict sliding_window ts lp) with
    | Ok _ => num_threads ts
    | Err _ => Nat.min 8 (num_threads ts)
    end
  /\ fst (predict_logits_from_preprocessed_data P load_state_dict sliding_window ts None)
     = Err TypeError
  /\ fst (predict_logits_from_preprocessed_data P load_state_dict sliding_window ts (Some []))
     = Err AttributeError.
Proof.
  assert (Hmin : (if Nat.ltb 8 (num_threads ts) then 8%nat else num_threads ts)
                 = Nat.min 8 (num_threads ts))
    by (destruct (Nat.ltb_spec 8 (num_threads ts)); lia).
  split; [|split; reflexivity].
  unfold predict_logits_from_preprocessed_data.
  destruct lp as [ps|]; [|cbn; exact Hmin].
  pose proof (ensemble_fold_threads P load_state_dict sliding_window ps
                (Ok None, mk_torch_state (if Nat.ltb 8 (num_threads ts) then 8%nat
                                          else num_threads ts) (loaded ts))) as Ht.
  destruct (fold_left (ensemble_step P load_state_dict sliding_window) ps
              (Ok None, mk_torch_state (if Nat.ltb 8 (num_threads ts) then 8%nat
                                        else num_threads ts) (loaded ts))) as [res ts2].
  cbn [snd] in Ht. rewrite Hmin in Ht.
  destruct res as [[q|]|e]; cbn; [reflexivity|exact Ht|exact Ht].
Qed.

Lemma ensemble_is_mean_of_folds_witness :
  fst (predict_logits_from_preprocessed_data nat (fun _ => Ok tt)
         (fun p => Ok (INR p, 0, 1)) (mk_torch_state 16 None) (Some [1; 3]%nat))
  = Ok ((INR 1 + (INR 3 + 0)) / INR 2, (0 + (0 + 0)) / INR 2, (1 + (1 + 0)) / INR 2).
Proof.
  rewrite (ensemble_is_mean_of_folds nat (fun _ => Ok tt) (fun p => Ok (INR p, 0, 1))
             (mk_torch_state 16 None) 1%nat [3]%nat INR (fun _ => 0) (fun _ => 1)
             (fun _ _ => eq_refl) (fun _ _ => eq_refl)).
  reflexivity.
Defined.

End EnsembleFacts.

Module SlicersFacts.
Import Slicers.

Lemma mapM_ok_map {A B} (f : A -> result B) (g : A -> B) (l : list A) :
  (forall x, In x l -> f x = Ok (g x)) -> mapM f l = Ok (map g l).
Proof.
  induction l as [|x l IH]; intros H; [reflexivity|]. simpl.
  rewrite (H x (or_introl eq_refl)). cbn [bind].
  rewrite IH by (intros; apply H; now right). reflexivity.
Qed.

Lemma concat_mapM_ok {A B} (f : A -> result (list B)) (g : A -> list B) (l : list A) :
  (forall x, In x l -> f x = Ok (g x)) -> concat_mapM f l = Ok (flat_map g l).
Proof.
  intros H. unfold concat_mapM. rewrite (mapM_ok_map f g l H). cbn [bind].
  now rewrite flat_map_concat_map.
Qed.

Lemma flat_map_const_length {A B} (g : A -> list B) (k : nat) (l : list A) :
  (forall x, length (g x) = k) -> length (flat_map g l) = length l * k.
Proof.
  intros H. induction l as [|x l IH]; [reflexivity|]. simpl. rewrite length_app, IH, H. lia.
Qed.

(** For a 3-d patch on an image with at most three axes,
    [_internal_get_sliding_window_slicers] yields one slicer per triple of
    steps: their number is the product of the numbers of steps, and each one
    keeps the channel axis whole and cuts a window of exactly the patch size
    at that triple. *)
Theorem slicers_3d (compute_steps : list nat -> list nat -> list (list nat)) (verbose : bool)
  (image_size : list nat) (p0 p1 p2 : nat) (s0 s1 s2 : list nat) (rest : list (list nat))
  (Hdim : length image_size <= 3)
  (Hsteps : compute_steps image_size [p0; p1; p2] = s0 :: s1 :: s2 :: rest) :
  exists l, get_sliding_window_slicers compute_steps verbose [p0; p1; p2] image_size = Ok l
    /\ length l = length s0 * length s1 * length s2
    /\ forall sl, In sl l <->
         exists sx sy sz, In sx s0 /\ In sy s1 /\ In sz s2
           /\ sl = [SAll; SRange sx (sx + p0); SRange sy (sy + p1); SRange sz (sz + p2)].
Proof.
  unfold get_sliding_window_slicers.
  destruct (Nat.ltb_spec (length [p0; p1; p2]) (length image_size)) as [Hlt|_];
    [simpl in Hlt; lia|].
  rewrite Hsteps. cbn [py_index nth_error bind].
  set (g := fun sx : nat => flat_map (fun sy => map (fun sz =>
              [SAll; SRange sx (sx + p0); SRange sy (sy + p1); SRange sz (sz + p2)]) s2) s1).
  rewrite (concat_mapM_ok _ g s0).
  2:{ intros sx _. cbn [py_index nth_error bind].
      apply concat_mapM_ok. intros sy _. reflexivity. }
  eexists. split; [reflexivity|]. split.
  - rewrite (flat_map_const_length g (length s1 * length s2)); [lia|].
    intros sx. unfold g. rewrite (flat_map_const_length _ (length s2)); [reflexivity|].
    intros sy. apply length_map.
  - intros sl. unfold g. rewrite in_flat_map. split.
    + intros [sx [Hx Hin]]. rewrite in_flat_map in Hin. destruct Hin as [sy [Hy Hin]].
      apply in_map_iff in Hin as [sz [<- Hz]]. exists sx, sy, sz. auto.
    + intros [sx [sy [sz [Hx [Hy [Hz ->]]]]]]. exists sx. split; [exact Hx|].
      apply in_flat_map. exists sy. split; [exact Hy|]. apply in_map_iff. eauto.
Qed.

(** For a 2-d patch on a 3-d image, the first image axis is walked slice by
    slice: there is one slicer per slice index [d] below [image_size[0]]
    and pair of steps (computed on the other two axes), each cutting a
    window of exactly the patch size; the verbose print does not change the
    result. *)
Theorem slicers_2d (compute_steps : list nat -> list nat -> list (list nat)) (verbose : bool)
  (d0 n1 n2 p1 p2 : nat) (s0 s1 : list nat) (rest : list (list nat))
  (Hsteps : compute_steps [n1; n2] [p1; p2] = s0 :: s1 :: rest) :
  exists l, get_sliding_window_slicers compute_steps verbose [p1; p2] [d0; n1; n2] = Ok l
    /\ length l = d0 * length s0 * length s1
    /\ forall sl, In sl l <->
         exists d sx sy, d < d0 /\ In sx s0 /\ In sy s1
           /\ sl = [SAll; SIdx d; SRange sx (sx + p1); SRange sy (sy + p2)].
Proof.
  unfold get_sliding_window_slicers. cbn [length tl Nat.ltb Nat.leb Nat.eqb Nat.sub assert bind].
  rewrite Hsteps.
  replace ((if verbose then _ else Ok tt) : result unit) with (Ok tt : result unit)
    by (destruct verbose; reflexivity).
  cbn [py_index nth_error bind].
  set (g := fun d : nat => flat_map (fun sx => map (fun sy =>
              [SAll; SIdx d; SRange sx (sx + p1); SRange sy (sy + p2)]) s1) s0).
  rewrite (concat_mapM_ok _ g (seq 0 d0)).
  2:{ intros d _. cbn [py_index nth_error bind].
      apply concat_mapM_ok. intros sx _. reflexivity. }
  eexists. split; [reflexivity|]. split.
  - rewrite (flat_map_const_length g (length s0 * length s1)).
    + rewrite length_seq. lia.
    + intros d. unfold g. rewrite (flat_map_const_length _ (length s1)); [reflexivity|].
      intros sx. apply length_map.
  - intros sl. unfold g. rewrite in_flat_map. split.
    + intros [d [Hd Hin]]. apply in_seq in Hd. rewrite in_flat_map in Hin.
      destruct Hin as [sx [Hx Hin]]. apply in_map_iff in Hin as [sy [<- Hy]].
      exists d, sx, sy. repeat split; auto; lia.
    + intros [d [sx [sy [Hd [Hx [Hy ->]]]]]]. exists d. split; [apply in_seq; lia|].
      apply in_flat_map. exists sx. split; [exact Hx|]. apply in_map_iff. eauto.
Qed.

(** A patch with fewer axes than the image but more than one fewer fails
    the assertion [len(patch_size) == len(image_size) - 1]. *)
Theorem slicers_patch_too_short (compute_steps : list nat -> list nat -> list (list nat))
  (verbose : bool) (patch_size image_size : list nat)
  (Hshort : S (length patch_size) < length image_size) :
  get_sliding_window_slicers compute_steps verbose patch_size image_size = Err AssertionError.
Proof.
  unfold get_sliding_window_slicers.
  destruct (Nat.ltb_spec (length patch_size) (length image_size)) as [_|]; [|lia].
  destruct (Nat.eqb_spec (length patch_size) (length image_size - 1)); [lia|].
  reflexivity.
Qed.

Lemma slicers_3d_witness :
  exists l, get_sliding_window_slicers (fun _ _ => [[0; 4]; [0]; [0; 2; 4]]) false
              [4; 8; 4] [8; 8; 8] = Ok l /\ length l = 6.
Proof.
  destruct (slicers_3d (fun _ _ => [[0; 4]; [0]; [0; 2; 4]]) false [8; 8; 8] 4 8 4
              [0; 4] [0] [0; 2; 4] [] (le_n 3) eq_refl) as [l [Hl [Hlen _]]].
  exists l. split; [exact Hl|]. exact Hlen.
Defined.

Lemma slicers_2d_witness :
  exists l, get_sliding_window_slicers (fun _ _ => [[0; 4]; [0; 2; 4]]) true
              [4; 4] [3; 8; 8] = Ok l /\ length l = 18.
Proof.
  destruct (slicers_2d (fun _ _ => [[0; 4]; [0; 2; 4]]) true 3 8 8 4 4
              [0; 4] [0; 2; 4] [] eq_refl) as [l [Hl [Hlen _]]].
  exists l. split; [exact Hl|]. exact Hlen.
Defined.

Lemma slicers_patch_too_short_witness :
  get_sliding_window_slicers (fun _ _ => []) true [4] [8; 8; 8] = Err AssertionError.
Proof.
  exact (slicers_patch_too_short (fun _ _ => []) true [4] [8; 8; 8]
           (ltac:(simpl; lia) : S (length [4]) < length [8; 8; 8])).
Defined.

End SlicersFacts.

Module EncoderBuildFacts.
Import Encoder Iterator EncoderBuild.

Definition stage_stride (x : nat * nat * nat * nat * nat * nat) : nat :=
  let '(_, _, se, _, _, _) := x in se.

Lemma foldM_cons_eq {A S} (f : S -> A -> result S) (x : A) (t : list A) (s : S) :
  foldM f (x :: t) s = bind (f s x) (fun s' => foldM f t s').
Proof. reflexivity. Qed.

Lemma stride_prod_pos (xs : list (nat * nat * nat * nat * nat * nat)) :
  (forall x, In x xs -> 0 < stage_stride x) -> 1 <= fold_right Nat.mul 1 (map stage_stride xs).
Proof.
  induction xs as [|x xs IH]; intros H; simpl; [lia|].
  pose proof (H x (or_introl eq_refl)). assert (1 <= fold_right Nat.mul 1 (map stage_stride xs))
    by (apply IH; intros; apply H; now right). nia.
Qed.

Lemma build_stage_later (c0 cp U : nat) (downs ups : list (list layer)) (k : nat)
  (ce ke se nr kr pr : nat) :
  build_stage (cp, U, Some c0, downs, ups) (S k, (ce, ke, se, nr, kr, pr))
  = Ok (ce, U * se, Some c0, downs ++ [[LNorm cp; LConv (conv cp ce se se); LAttnRes ce nr kr pr]],
        ups ++ [if Nat.eqb (U * se) 1 then [LConv (conv ce c0 1 1); LNorm c0]
                else [LConv (conv ce c0 1 1); LNorm c0; LUpsample (U * se)]]).
Proof. reflexivity. Qed.

Lemma build_stage_first (cin : nat) (ce ke se nr kr pr : nat) :
  build_stage (cin, 1, None, [], []) (0, (ce, ke, se, nr, kr, pr))
  = Ok (ce, 1, Some ce,
        [([LConv (conv cin ce se se)] ++ (if Nat.eqb nr 0 then [] else [LNorm ce]))
           ++ [LAttnRes ce nr kr pr]],
        [[LConv (conv ce ce 1 1); LNorm ce]]).
Proof. reflexivity. Qed.

Section Sizes.

Variable attn : nat -> nat -> nat -> nat -> nat -> nat.
Hypothesis Hattn : forall d nl k p n, attn d nl k p n = n.

Lemma conv_stride_size (cin ce se q : nat) :
  0 < se -> 1 <= q -> conv_out_size (conv cin ce se se) (se * q) = Ok q.
Proof.
  intros Hs Hq. unfold conv_out_size. cbn [padding kernel_size stride conv].
  destruct (Nat.ltb_spec (se * q + 2 * 0) se); [nia|].
  f_equal. replace (se * q + 2 * 0 - se) with ((q - 1) * se) by nia.
  rewrite Nat.div_mul by lia. lia.
Qed.

Lemma later_down_size (cp ce se nr kr pr q : nat) :
  0 < se -> 1 <= q ->
  foldM (layer_size attn) [LNorm cp; LConv (conv cp ce se se); LAttnRes ce nr kr pr] (se * q)
  = Ok q.
Proof.
  intros Hs Hq. cbn [foldM layer_size bind]. rewrite conv_stride_size by assumption.
  cbn [bind layer_size foldM]. now rewrite Hattn.
Qed.

Lemma first_down_size (cin ce se nr kr pr q : nat) :
  0 < se -> 1 <= q ->
  foldM (layer_size attn)
    (([LConv (conv cin ce se se)] ++ (if Nat.eqb nr 0 then [] else [LNorm ce]))
       ++ [LAttnRes ce nr kr pr]) (se * q)
  = Ok q.
Proof.
  intros Hs Hq. cbn [app foldM layer_size]. rewrite conv_stride_size by assumption.
  cbn [bind]. destruct (Nat.eqb nr 0); cbn [app foldM layer_size bind]; now rewrite Hattn.
Qed.

Lemma up_size (ce c0 U q : nat) :
  1 <= q ->
  foldM (layer_size attn)
    (if Nat.eqb U 1 then [LConv (conv ce c0 1 1); LNorm c0]
     else [LConv (conv ce c0 1 1); LNorm c0; LUpsample U]) q
  = Ok (q * U).
Proof.
  intros Hq.
  assert (Hc : conv_out_size (conv ce c0 1 1) q = Ok q).
  { unfold conv_out_size. cbn [padding kernel_size stride conv].
    destruct (Nat.ltb_spec (q + 2 * 0) 1); [lia|]. f_equal. rewrite Nat.div_1_r. lia. }
  destruct (Nat.eqb_spec U 1) as [->|_]; cbn [foldM layer_size]; rewrite Hc;
    cbn [bind foldM layer_size]; f_equal; lia.
Qed.

End Sizes.

(** The build from the second stage on, and what the stages it adds do in
    [forward]. *)
Lemma build_rest (c0 : nat) (xs : list (nat * nat * nat * nat * nat * nat)) :
  forall k cp U downs ups, 0 < k ->
  exists cp' U' downs' ups',
    foldM build_stage (combine (seq k (length xs)) xs) (cp, U, Some c0, downs, ups)
      = Ok (cp', U', Some c0, downs ++ downs', ups ++ ups')
    /\ length downs' = length xs /\ length ups' = length xs
    /\ (forall u, In u ups' -> exists ce, firstn 2 u = [LConv (conv ce c0 1 1); LNorm c0])
    /\ (forall attn, (forall d nl k p n, attn d nl k p n = n) ->
        (forall x, In x xs -> 0 < stage_stride x) ->
        forall m fs, 1 <= m ->
        foldM (fun '(x, fs) '(down, up) =>
                 x <- foldM (layer_size attn) down x ;;
                 f <- foldM (layer_size attn) up x ;;
                 Ok (x, app fs [f]))
              (combine downs' ups') (m * fold_right Nat.mul 1 (map stage_stride xs), fs)
        = Ok (m, fs ++ repeat (m * U * fold_right Nat.mul 1 (map stage_stride xs)) (length xs))).
Proof.
  induction xs as [|x xs IH]; intros k cp U downs ups Hk.
  - exists cp, U, [], []. rewrite !app_nil_r. repeat split; try reflexivity.
    + intros u [].
    + intros attn _ _ m fs _. cbn. rewrite Nat.mul_1_r, app_nil_r. reflexivity.
  - destruct x as [[[[[ce ke] se] nr] kr] pr]. destruct k as [|k]; [lia|].
    cbn [length seq combine]. rewrite foldM_cons_eq, build_stage_later. cbn [bind].
    set (blk := [LNorm cp; LConv (conv cp ce se se); LAttnRes ce nr kr pr]).
    set (up := if Nat.eqb (U * se) 1 then [LConv (conv ce c0 1 1); LNorm c0]
               else [LConv (conv ce c0 1 1); LNorm c0; LUpsample (U * se)]).
    destruct (IH (S (S k)) ce (U * se) (downs ++ [blk]) (ups ++ [up]) ltac:(lia))
      as [cp' [U' [D [Us [Hf [HD [HU [Hpre Hfw]]]]]]]].
    exists cp', U', (blk :: D), (up :: Us). rewrite Hf, <- !app_assoc.
    split; [reflexivity|]. split; [cbn; lia|]. split; [cbn; lia|]. split.
    + intros u [<-|Hu]; [|now apply Hpre].
      exists ce. unfold up. now destruct (Nat.eqb (U * se) 1).
    + intros attn Hattn Hpos m fs Hm.
      assert (Hse : 0 < se) by exact (Hpos _ (or_introl eq_refl)).
      assert (HP : 1 <= fold_right Nat.mul 1 (map stage_stride xs))
        by (apply stride_prod_pos; intros; apply Hpos; now right).
      cbn [combine map fold_right stage_stride]. rewrite foldM_cons_eq. cbv beta iota.
      replace (m * (se * fold_right Nat.mul 1 (map stage_stride xs)))
        with (se * (m * fold_right Nat.mul 1 (map stage_stride xs))) by ring.
      unfold blk. rewrite later_down_size by (assumption || nia). cbn [bind].
      unfold up. rewrite up_size by nia. cbn [bind].
      rewrite Hfw by (assumption || (intros; apply Hpos; now right)).
      rewrite <- app_assoc. cbn [app repeat].
      set (P := fold_right Nat.mul 1 (map stage_stride xs)).
      replace (m * P * (U * se)) with (m * U * (se * P)) by ring.
      replace (m * (U * se) * P) with (m * U * (se * P)) by ring. reflexivity.
Qed.

Lemma zip6_cons (a : encoder_args)
  (Hne : a_conv_channels a <> [] /\ a_conv_kernel a <> [] /\ a_conv_stride a <> []
         /\ a_resblock_n a <> [] /\ a_resblock_kernel a <> [] /\ a_resblock_padding a <> []) :
  exists ke se nr kr pr xs, zip6 a = (hd 0 (a_conv_channels a), ke, se, nr, kr, pr) :: xs.
Proof.
  destruct Hne as [H1 [H2 [H3 [H4 [H5 H6]]]]]. unfold zip6.
  destruct (a_conv_channels a); [congruence|]. destruct (a_conv_kernel a); [congruence|].
  destruct (a_conv_stride a); [congruence|]. destruct (a_resblock_n a); [congruence|].
  destruct (a_resblock_kernel a); [congruence|]. destruct (a_resblock_padding a); [congruence|].
  simpl. eauto 10.
Qed.

Lemma build_encoder_core (a : encoder_args)
  (Hne : a_conv_channels a <> [] /\ a_conv_kernel a <> [] /\ a_conv_stride a <> []
         /\ a_resblock_n a <> [] /\ a_resblock_kernel a <> [] /\ a_resblock_padding a <> []) :
  exists e, build_image_encoder a = Ok e
    /\ length (down_layers e) = length (zip6 a)
    /\ length (up_layers e) = length (zip6 a)
    /\ (forall u, In u (up_layers e) ->
          exists ce, firstn 2 u = [LConv (conv ce (hd 0 (a_conv_channels a)) 1 1);
                                   LNorm (hd 0 (a_conv_channels a))])
    /\ in_channels (conv_latent e) = hd 0 (a_conv_channels a) * length (a_conv_channels a)
    /\ (forall attn, (forall d nl k p n, attn d nl k p n = n) ->
        (forall x, In x (zip6 a) -> 0 < stage_stride x) ->
        forall m, 1 <= m ->
        forward_sizes attn e (m * fold_right Nat.mul 1 (map stage_stride (zip6 a)))
        = Ok (repeat (m * fold_right Nat.mul 1 (tl (map stage_stride (zip6 a))))
                     (length (zip6 a)))).
Proof.
  destruct (zip6_cons a Hne) as [ke [se [nr [kr [pr [xs Hz]]]]]].
  set (c0 := hd 0 (a_conv_channels a)) in *.
  unfold build_image_encoder. rewrite Hz. cbn [length seq combine].
  rewrite foldM_cons_eq, build_stage_first. cbn [bind].
  set (b0 := ([LConv (conv (a_in_channels a) c0 se se)] ++ (if Nat.eqb nr 0 then [] else [LNorm c0]))
               ++ [LAttnRes c0 nr kr pr]).
  destruct (build_rest c0 xs 1 c0 1 [b0] [[LConv (conv c0 c0 1 1); LNorm c0]] ltac:(lia))
    as [cp' [U' [D [Us [Hf [HD [HU [Hpre Hfw]]]]]]]].
  rewrite Hf. eexists. split; [reflexivity|].
  cbn [down_layers up_layers conv_latent in_channels conv length app].
  split; [lia|]. split; [lia|]. split.
  { intros u [<-|Hu]; [exists c0; reflexivity|]. now apply Hpre. }
  split; [reflexivity|].
  intros attn Hattn Hpos m Hm.
  assert (Hse : 0 < se) by exact (Hpos _ (or_introl eq_refl)).
  assert (HP : 1 <= fold_right Nat.mul 1 (map stage_stride xs))
    by (apply stride_prod_pos; intros; apply Hpos; now right).
  unfold forward_sizes. cbn [down_layers up_layers app combine map fold_right stage_stride tl].
  rewrite foldM_cons_eq. cbv beta iota.
  replace (m * (se * fold_right Nat.mul 1 (map stage_stride xs)))
    with (se * (m * fold_right Nat.mul 1 (map stage_stride xs))) by ring.
  unfold b0. rewrite first_down_size by (assumption || nia). cbn [bind].
  pose proof (up_size attn c0 c0 1 (m * fold_right Nat.mul 1 (map stage_stride xs))
                ltac:(nia)) as Hu.
  cbn [Nat.eqb] in Hu. rewrite Hu. cbn [bind].
  rewrite Nat.mul_1_r.
  rewrite Hfw by (assumption || (intros; apply Hpos; now right)).
  cbn [bind snd app length repeat]. rewrite Nat.mul_1_r. reflexivity.
Qed.

(** When every per-stage list is non-empty, [ImageEncoder.__init__]
    builds one down block and one up block per stage, as many as the
    shortest list has entries ([zip]); every up block starts with a 1x1
    convolution to [c_enc[0]] channels and its [LayerNorm], while the
    latent convolution expects [c_enc[0] * len(c_enc)] input channels, so
    the two counts agree only when no other list is shorter than [c_enc]. *)
Theorem build_encoder_channels (a : encoder_args)
  (Hne : a_conv_channels a <> [] /\ a_conv_kernel a <> [] /\ a_conv_stride a <> []
         /\ a_resblock_n a <> [] /\ a_resblock_kernel a <> [] /\ a_resblock_padding a <> []) :
  exists e, build_image_encoder a = Ok e
    /\ length (up_layers e) = length (down_layers e)
    /\ length (up_layers e) = Nat.min (length (a_conv_channels a)) (Nat.min (length (a_conv_kernel a))
         (Nat.min (length (a_conv_stride a)) (Nat.min (length (a_resblock_n a))
         (Nat.min (length (a_resblock_kernel a)) (length (a_resblock_padding a))))))
    /\ (forall u, In u (up_layers e) ->
          exists ce, firstn 2 u = [LConv (conv ce (hd 0 (a_conv_channels a)) 1 1);
                                   LNorm (hd 0 (a_conv_channels a))])
    /\ in_channels (conv_latent e) = hd 0 (a_conv_channels a) * length (a_conv_channels a).
Proof.
  destruct (build_encoder_core a Hne) as [e [He [HD [HU [Hpre [Hlat _]]]]]].
  exists e. split; [exact He|]. split; [lia|]. split; [|split; assumption].
  rewrite HU. unfold zip6. rewrite !length_combine. lia.
Qed.

(** With identity-sized residual blocks, positive strides and an input
    whose size is a positive multiple [m] of the product of the strides,
    [ImageEncoder.forward] produces one feature per stage, all of the same
    spatial size (the input divided by the first stride), so that they can
    be concatenated. *)
Theorem encoder_features_same_size (a : encoder_args)
  (attn_res_size : nat -> nat -> nat -> nat -> nat -> nat)
  (Hattn : forall d nl k p n, attn_res_size d nl k p n = n)
  (Hne : a_conv_channels a <> [] /\ a_conv_kernel a <> [] /\ a_conv_stride a <> []
         /\ a_resblock_n a <> [] /\ a_resblock_kernel a <> [] /\ a_resblock_padding a <> [])
  (Hpos : forall s, In s (map stage_stride (zip6 a)) -> 0 < s) (m : nat) (Hm : 1 <= m) :
  exists e, build_image_encoder a = Ok e
    /\ forward_sizes attn_res_size e (m * fold_right Nat.mul 1 (map stage_stride (zip6 a)))
       = Ok (repeat (m * fold_right Nat.mul 1 (tl (map stage_stride (zip6 a))))
                    (length (zip6 a))).
Proof.
  destruct (build_encoder_core a Hne) as [e [He [_ [_ [_ [_ Hfw]]]]]].
  exists e. split; [exact He|]. apply Hfw; [exact Hattn| |exact Hm].
  intros x Hx. apply Hpos. now apply in_map.
Qed.

(** [ImageEncoder.__init__] raises [TypeError] ([None * len(self.c_enc)],
    the loop never having bound [up_channel]) exactly when one of the
    per-stage lists is empty; otherwise it builds the encoder. *)
Theorem build_encoder_type_error (a : encoder_args) :
  build_image_encoder a = Err TypeError
  <-> (a_conv_channels a = [] \/ a_conv_kernel a = [] \/ a_conv_stride a = []
       \/ a_resblock_n a = [] \/ a_resblock_kernel a = [] \/ a_resblock_padding a = []).
Proof.
  split.
  - intros H.
    destruct (list_eq_dec Nat.eq_dec (a_conv_channels a) []) as [?|H1]; [now left|].
    destruct (list_eq_dec Nat.eq_dec (a_conv_kernel a) []) as [?|H2]; [now right; left|].
    destruct (list_eq_dec Nat.eq_dec (a_conv_stride a) []) as [?|H3]; [now do 2 right; left|].
    destruct (list_eq_dec Nat.eq_dec (a_resblock_n a) []) as [?|H4]; [now do 3 right; left|].
    destruct (list_eq_dec Nat.eq_dec (a_resblock_kernel a) []) as [?|H5]; [now do 4 right; left|].
    destruct (list_eq_dec Nat.eq_dec (a_resblock_padding a) []) as [?|H6]; [now do 5 right|].
    destruct (build_encoder_core a) as [e [He _]]; [tauto|]. congruence.
  - intros Hempty.
    assert (Hz : zip6 a = []).
    { unfold zip6.
      destruct Hempty as [-> | [-> | [-> | [-> | [-> | ->]]]]]; rewrite ?combine_nil; reflexivity. }
    unfold build_image_encoder. rewrite Hz. reflexivity.
Qed.

Lemma foldM_ext2 {A S} (f : S -> A -> result S) (l1 l2 : list A) :
  Forall2 (fun x y => forall st, f st x = f st y) l1 l2 ->
  forall st, foldM f l1 st = foldM f l2 st.
Proof.
  induction 1 as [|x y l1 l2 Hxy _ IH]; intros st; [reflexivity|]. simpl.
  rewrite Hxy. destruct (f st y); [apply IH|reflexivity].
Qed.

Lemma combine_rel_l {A B C} (R : A -> B -> Prop) (l1 : list A) (l2 : list B) (m : list C) :
  Forall2 R l1 l2 ->
  Forall2 (fun x y => R (fst x) (fst y) /\ snd x = snd y) (combine l1 m) (combine l2 m).
Proof.
  intros H. revert m. induction H as [|x y l1 l2 Hxy _ IH]; intros m; [constructor|].
  destruct m as [|z m]; simpl; constructor; auto.
Qed.

Lemma combine_rel_r {A B C} (R : A -> B -> Prop) (l1 : list A) (l2 : list B) (s : list C) :
  Forall2 R l1 l2 ->
  Forall2 (fun x y => fst x = fst y /\ R (snd x) (snd y)) (combine s l1) (combine s l2).
Proof.
  intros H. revert s. induction H as [|x y l1 l2 Hxy _ IH]; intros s;
    destruct s as [|i s]; simpl; constructor; auto.
Qed.

Lemma combine_same_length {A B} (c : list A) (k k' : list B) :
  length k = length k' -> Forall2 (fun x y => fst x = fst y) (combine c k) (combine c k').
Proof.
  revert k k'. induction c as [|x c IH]; intros k k' Hk; [constructor|].
  destruct k as [|y k], k' as [|y' k']; try discriminate; simpl; [constructor|].
  constructor; [reflexivity|]. apply IH. simpl in Hk. lia.
Qed.

(** [args['conv_kernel']] is read but never used: the down convolution
    of each stage takes its stride as kernel size, and replacing the list by
    any other of the same length builds the same encoder. *)
Theorem build_encoder_ignores_conv_kernel (a : encoder_args) (k' : list nat)
  (Hk : length k' = length (a_conv_kernel a)) :
  build_image_encoder
    {| a_in_channels := a_in_channels a; a_conv_channels := a_conv_channels a;
       a_conv_kernel := k'; a_conv_stride := a_conv_stride a;
       a_resblock_n := a_resblock_n a; a_resblock_kernel := a_resblock_kernel a;
       a_resblock_padding := a_resblock_padding a;
       a_layer_scale_init_value := a_layer_scale_init_value a;
       a_latent_space_dim := a_latent_space_dim a; a_vq_beta := a_vq_beta a;
       a_vq_n_embed := a_vq_n_embed a |}
  = build_image_encoder a.
Proof.
  set (a' := {| a_in_channels := a_in_channels a; a_conv_channels := a_conv_channels a;
       a_conv_kernel := k'; a_conv_stride := a_conv_stride a;
       a_resblock_n := a_resblock_n a; a_resblock_kernel := a_resblock_kernel a;
       a_resblock_padding := a_resblock_padding a;
       a_layer_scale_init_value := a_layer_scale_init_value a;
       a_latent_space_dim := a_latent_space_dim a; a_vq_beta := a_vq_beta a;
       a_vq_n_embed := a_vq_n_embed a |}).
  assert (Hz : Forall2 (fun x y => forall st i, build_stage st (i, x) = build_stage st (i, y))
                 (zip6 a') (zip6 a)).
  { unfold zip6. cbn [a_conv_channels a_conv_kernel a_conv_stride a_resblock_n
                      a_resblock_kernel a_resblock_padding a'].
    pose proof (combine_same_length (a_conv_channels a) k' (a_conv_kernel a) Hk) as H1.
    pose proof (combine_rel_l _ _ _ (a_conv_stride a) H1) as H2.
    pose proof (combine_rel_l _ _ _ (a_resblock_n a) H2) as H3.
    pose proof (combine_rel_l _ _ _ (a_resblock_kernel a) H3) as H4.
    pose proof (combine_rel_l _ _ _ (a_resblock_padding a) H4) as H5.
    refine (Forall2_impl _ _ H5).
    intros [[[[[c k] s] n] kr] p] [[[[[c2 k2] s2] n2] kr2] p2]; cbn [fst snd].
    intros [[[[Hc Hs] Hn] Hkr] Hp]. subst. intros [[[[cp us] uc] ds] ups] i. reflexivity. }
  assert (Hl : length (zip6 a') = length (zip6 a)) by exact (Forall2_length Hz).
  unfold build_image_encoder. rewrite Hl.
  rewrite (foldM_ext2 build_stage (combine (seq 0 (length (zip6 a))) (zip6 a'))
                                  (combine (seq 0 (length (zip6 a))) (zip6 a))).
  - reflexivity.
  - refine (Forall2_impl _ _ (combine_rel_r _ _ _ (seq 0 (length (zip6 a))) Hz)).
    intros [i x] [j y]; cbn [fst snd]. intros [<- Hxy] st. apply Hxy.
Qed.

Lemma build_encoder_channels_witness :
  exists e, build_image_encoder
              {| a_in_channels := 1; a_conv_channels := [8; 16]; a_conv_kernel := [3; 3];
                 a_conv_stride := [2; 2]; a_resblock_n := [1; 1];
                 a_resblock_kernel := [3; 3]; a_resblock_padding := [1; 1];
                 a_layer_scale_init_value := 0%R; a_latent_space_dim := 4;
                 a_vq_beta := 0%R; a_vq_n_embed := 8 |} = Ok e
    /\ in_channels (conv_latent e) = 16.
Proof.
  match goal with |- exists e, build_image_encoder ?a = Ok e /\ _ =>
    destruct (build_encoder_channels a) as [e [He [_ [_ [_ Hl]]]]];
    [repeat split; discriminate|];
    exists e; split; [exact He|exact Hl]
  end.
Defined.

Lemma encoder_features_same_size_witness :
  exists e, build_image_encoder
              {| a_in_channels := 1; a_conv_channels := [8; 16]; a_conv_kernel := [3; 3];
                 a_conv_stride := [2; 2]; a_resblock_n := [1; 1];
                 a_resblock_kernel := [3; 3]; a_resblock_padding := [1; 1];
                 a_layer_scale_init_value := 0%R; a_latent_space_dim := 4;
                 a_vq_beta := 0%R; a_vq_n_embed := 8 |} = Ok e
    /\ forward_sizes (fun _ _ _ _ n => n) e 12 = Ok [6; 6].
Proof.
  match goal with |- exists e, build_image_encoder ?a = Ok e /\ _ =>
    destruct (encoder_features_same_size a (fun _ _ _ _ n => n) (fun _ _ _ _ _ => eq_refl)
                ltac:(repeat split; discriminate)
                ltac:(intros s Hs; simpl in Hs; destruct Hs as [<- | [<- | []]]; lia)
                3 ltac:(lia)) as [e [He Hf]];
    exists e; split; [exact He|exact Hf]
  end.
Defined.

Lemma build_encoder_ignores_conv_kernel_witness :
  build_image_encoder
    {| a_in_channels := 1; a_conv_channels := [8; 16]; a_conv_kernel := [7; 5];
       a_conv_stride := [2; 2]; a_resblock_n := [1; 1];
       a_resblock_kernel := [3; 3]; a_resblock_padding := [1; 1];
       a_layer_scale_init_value := 0%R; a_latent_space_dim := 4;
       a_vq_beta := 0%R; a_vq_n_embed := 8 |}
  = build_image_encoder
    {| a_in_channels := 1; a_conv_channels := [8; 16]; a_conv_kernel := [3; 3];
       a_conv_stride := [2; 2]; a_resblock_n := [1; 1];
       a_resblock_kernel := [3; 3]; a_resblock_padding := [1; 1];
       a_layer_scale_init_value := 0%R; a_latent_space_dim := 4;
       a_vq_beta := 0%R; a_vq_n_embed := 8 |}.
Proof.
  exact (build_encoder_ignores_conv_kernel
    {| a_in_channels := 1; a_conv_channels := [8; 16]; a_conv_kernel := [3; 3];
       a_conv_stride := [2; 2]; a_resblock_n := [1; 1];
       a_resblock_kernel := [3; 3]; a_resblock_padding := [1; 1];
       a_layer_scale_init_value := 0%R; a_latent_space_dim := 4;
       a_vq_beta := 0%R; a_vq_n_embed := 8 |} [7; 5] eq_refl).
Defined.

End EncoderBuildFacts.

Module FilesFacts.
Import ManageLists Iterator Contribution Run Files IteratorFacts.
Local Open Scope string_scope.

Lemma mapM_all_ok {A B} (f : A -> result B) (l : list A) :
  (forall x, In x l -> exists y, f x = Ok y) -> exists l', mapM f l = Ok l'.
Proof.
  induction l as [|a l IH]; intros H; [exists []; reflexivity|]. simpl.
  destruct (H a (or_introl eq_refl)) as [y Hy]. rewrite Hy. cbn [bind].
  destruct IH as [l' Hl'].
  { intros z Hz. apply H. now right. }
  rewrite Hl'. cbn [bind]. eauto.
Qed.

Lemma mapM_in {A B} (f : A -> result B) (l : list A) (l' : list B) :
  mapM f l = Ok l' -> forall y, In y l' -> exists x, In x l /\ f x = Ok y.
Proof.
  revert l'. induction l as [|x l IH]; intros l' H y Hy; simpl in H.
  - injection H as <-. destruct Hy.
  - destruct (f x) as [b|e] eqn:Ef; cbn [bind] in H; [|discriminate H].
    destruct (mapM f l) as [t|e] eqn:Et; cbn [bind] in H; [|discriminate H].
    injection H as <-. destruct Hy as [Hb|Hy].
    + subst. exists x. split; [now left|exact Ef].
    + destruct (IH t eq_refl y Hy) as [x' [Hx' Hf]]. exists x'. split; [now right|exact Hf].
Qed.

Lemma slice_step_in {A} (l : list A) (start step : nat) (sl : list A) :
  py_slice_step l start step = Ok sl -> forall x, In x sl -> In x l.
Proof.
  unfold py_slice_step. destruct (Nat.eqb step 0); [discriminate|]. intros H. injection H as <-.
  intros x Hx. apply in_map_iff in Hx as [[i y] [<- Hin]]. apply filter_In in Hin as [Hin _].
  exact (in_combine_r _ _ _ _ Hin).
Qed.

Lemma filter_unflagged_nil {B} (h : B -> bool) (o : list B) (s : list nat) :
  (forall x, In x o -> h x = true) ->
  filter (fun p => negb (snd p)) (combine s (map h o)) = [].
Proof.
  revert s. induction o as [|x o IH]; intros s H; [now destruct s|].
  destruct s as [|i s]; [reflexivity|]. simpl. rewrite (H x (or_introl eq_refl)). simpl.
  apply IH. intros; apply H; now right.
Qed.


(** With [overwrite = False] (continue a previous run) and an output
    folder whose run files are written, when the label output of every source case already exists (and
    its [.npz] when probabilities are saved), [predict_from_files] finds
    nothing to predict and returns [None]. *)
Theorem files_continue_nothing_to_do (isfile : string -> bool) (file_ending : string)
  (create_lists : string -> list (list string)) (N : nat) (previous_stage_name : option string)
  (mkd wf : string -> result unit) (ic : option nat -> result unit)
  (st : pstate) (sources : list (list string)) (f : string) (save : bool)
  (segs_from_prev : option string) (num_parts part_id : nat)
  (Hwrite : write_run_files N mkd wf ic f = Ok tt)
  (Hparts : num_parts <> 0)
  (Hprev : previous_stage_name = None \/ segs_from_prev <> None)
  (Hdone : forall s, In s sources -> exists c, caseid file_ending s = Ok c
             /\ isfile (path_join f c ++ file_ending) = true
             /\ (save = true -> isfile (path_join f c ++ ".npz") = true)) :
  predict_from_files isfile file_ending create_lists N previous_stage_name mkd wf ic st
    (SrcLists sources) (OutFolder f) save false segs_from_prev num_parts part_id
  = Ok NothingToDo.
Proof.
  unfold predict_from_files. cbn [bind output_folder_of]. rewrite Hwrite. cbn [bind].
  assert (Hassert : match previous_stage_name with
                    | Some _ => assert (match segs_from_prev with Some _ => true | None => false end)
                    | None => Ok tt
                    end = Ok tt).
  { destruct Hprev as [->|Hs]; [reflexivity|].
    destruct previous_stage_name; [|reflexivity].
    destruct segs_from_prev; [reflexivity|congruence]. }
  rewrite Hassert. cbn [bind].
  unfold manage_input_and_output_lists.
  destruct (py_slice_step sources part_id num_parts) as [sl|e] eqn:Esl.
  2:{ unfold py_slice_step in Esl. destruct (Nat.eqb_spec num_parts 0); [lia|]. discriminate. }
  cbn [bind].
  destruct (mapM_all_ok (caseid file_ending) sl) as [cs Hcs].
  { intros x Hx. destruct (Hdone x (slice_step_in _ _ _ _ Esl x Hx)) as [c [Hc _]]. eauto. }
  rewrite Hcs. cbn [bind resolve_outputs negb].
  set (o := map (path_join f) cs).
  set (h := fun i => (isfile (i ++ file_ending) && (if save then isfile (i ++ ".npz") else true))%bool).
  assert (Hh : forall x, In x o -> h x = true).
  { intros x Hx. unfold o in Hx. apply in_map_iff in Hx as [c [<- Hc]].
    destruct (mapM_in _ _ _ Hcs c Hc) as [s [Hs Hsc]].
    destruct (Hdone s (slice_step_in _ _ _ _ Esl s Hs)) as [c' [Hc' [Hf Hnpz]]].
    rewrite Hsc in Hc'. injection Hc' as <-. unfold h. rewrite Hf.
    destruct save; [now rewrite Hnpz|reflexivity]. }
  assert (Htmp : (if save then map (fun '(i, j) => (i && j)%bool)
                                 (combine (map (fun i => isfile (i ++ file_ending)) o)
                                          (map (fun i => isfile (i ++ ".npz")) o))
                  else map (fun i => isfile (i ++ file_ending)) o) = map h o).
  { unfold h. destruct save; [apply ManageListsFacts.map_and_combine|].
    apply map_ext. intros x. now rewrite andb_true_r. }
  rewrite Htmp, (filter_unflagged_nil h o _ Hh). reflexivity.
Qed.

Lemma files_continue_nothing_to_do_witness :
  predict_from_files (fun _ => true) ".nii.gz" (fun _ => []) 2 None
    (fun _ => Ok tt) (fun _ => Ok tt) (fun _ => Ok tt)
    {| one2one_translate_psnr := None; jobs := [] |}
    (SrcLists [["d/case1_0000.nii.gz"]]) (OutFolder "out") true false None 1 0
  = Ok NothingToDo.
Proof.
  apply (files_continue_nothing_to_do (fun _ => true) ".nii.gz" (fun _ => []) 2 None
           (fun _ => Ok tt) (fun _ => Ok tt) (fun _ => Ok tt)
           {| one2one_translate_psnr := None; jobs := [] |} [["d/case1_0000.nii.gz"]]
           "out" true None 1 0).
  - reflexivity.
  - discriminate.
  - now left.
  - intros s [<-|[]]. exists "case1". repeat split.
Defined.

End FilesFacts.

Module SliceFacts.
Import ManageLists.

Lemma concat_pick {X} (c : X) (G : nat -> list X) (i0 : nat) (is : list nat) :
  NoDup is -> In i0 is ->
  Permutation (concat (map (fun i => if Nat.eqb i i0 then c :: G i else G i) is))
              (c :: concat (map G is)).
Proof.
  induction is as [|j is IH]; intros Hnd Hin; [destruct Hin|].
  inversion Hnd as [|? ? Hj Hnd']; subst. simpl.
  destruct (Nat.eqb_spec j i0) as [->|Hne].
  - replace (map (fun i => if Nat.eqb i i0 then c :: G i else G i) is) with (map G is);
      [apply Permutation_refl|].
    apply map_ext_in. intros i Hi. destruct (Nat.eqb_spec i i0); [subst; contradiction|reflexivity].
  - destruct Hin as [->|Hin]; [contradiction|].
    eapply perm_trans; [apply Permutation_app_head, IH; assumption|].
    apply Permutation_sym, Permutation_middle.
Qed.

Lemma concat_filters_perm {X} (p : nat -> X -> bool) (is : list nat) (C : list X) :
  NoDup is ->
  (forall c, In c C -> exists i, In i is /\ p i c = true
                                 /\ forall j, In j is -> p j c = true -> j = i) ->
  Permutation (concat (map (fun i => filter (p i) C) is)) C.
Proof.
  intros Hnd. induction C as [|c C IH]; intros H.
  - simpl. induction is as [|j is IHis]; [constructor|]. simpl.
    inversion Hnd; subst. now apply IHis.
  - destruct (H c (or_introl eq_refl)) as (i0 & Hi0 & Hp & Hu).
    replace (map (fun i => filter (p i) (c :: C)) is)
      with (map (fun i => if Nat.eqb i i0 then c :: filter (p i) C else filter (p i) C) is).
    + eapply perm_trans; [apply concat_pick; assumption|].
      apply perm_skip, IH. intros c' Hc'. apply H. now right.
    + apply map_ext_in. intros i Hi. simpl.
      destruct (Nat.eqb_spec i i0) as [->|Hne]; [now rewrite Hp|].
      destruct (p i c) eqn:E; [|reflexivity]. exfalso. apply Hne, Hu; assumption.
Qed.

(** Of the parts [0 .. n-1], exactly one keeps position [k]: [k mod n]. *)
Lemma slice_select_unique (n k : nat) : n <> 0 ->
  exists i, In i (seq 0 n) /\ (i <=? k) && ((k - i) mod n =? 0) = true
            /\ forall j, In j (seq 0 n) -> (j <=? k) && ((k - j) mod n =? 0) = true -> j = i.
Proof.
  intros Hn. exists (k mod n). split; [|split].
  - apply in_seq. pose proof (Nat.mod_upper_bound k n Hn). lia.
  - apply andb_true_intro. split; [apply Nat.leb_le, Nat.Div0.mod_le|].
    apply Nat.eqb_eq. pose proof (Nat.div_mod_eq k n) as Hd.
    replace (k - k mod n) with (k / n * n) by (rewrite Nat.mul_comm in Hd; lia).
    apply Nat.Div0.mod_mul.
  - intros j Hj Hp. apply in_seq in Hj. apply andb_true_iff in Hp as [H1 H2].
    apply Nat.leb_le in H1. apply Nat.eqb_eq in H2.
    pose proof (Nat.div_mod_eq (k - j) n) as Hd. rewrite H2, Nat.add_0_r in Hd.
    replace k with (j + (k - j) / n * n) by (rewrite Nat.mul_comm in Hd; lia).
    rewrite Nat.Div0.mod_add. symmetry. apply Nat.mod_small. lia.
Qed.

Lemma map_snd_combine_seq {A} (l : list A) (s : nat) : map snd (combine (seq s (length l)) l) = l.
Proof. revert s. induction l as [|x l IH]; intros s; simpl; [reflexivity|]. now rewrite IH. Qed.

(** The parts [l[i::n]] for [i] in [0 .. n-1] together hold every element of
    [l] exactly once. *)
Lemma slices_perm {A} (l : list A) (n : nat) : n <> 0 ->
  Permutation
    (concat (map (fun i => map snd (filter (fun q => (i <=? fst q) && ((fst q - i) mod n =? 0))
                                           (combine (seq 0 (length l)) l))) (seq 0 n)))
    l.
Proof.
  intros Hn.
  rewrite <- (map_map (fun i => filter (fun q => (i <=? fst q) && ((fst q - i) mod n =? 0))
                                       (combine (seq 0 (length l)) l)) (map snd)).
  rewrite <- concat_map.
  eapply Permutation_trans; [apply Permutation_map, concat_filters_perm
                            |rewrite map_snd_combine_seq; apply Permutation_refl].
  - apply seq_NoDup.
  - intros [k x] _. apply (slice_select_unique n k Hn).
Qed.

Lemma in_slice_step {A} (l : list A) (i n : nat) (x : A) :
  In x (map snd (filter (fun q => (i <=? fst q) && ((fst q - i) mod n =? 0))
                        (combine (seq 0 (length l)) l))) -> In x l.
Proof.
  intros Hx. apply in_map_iff in Hx as ([k y] & <- & Hy).
  apply filter_In in Hy as [Hy _]. eapply in_combine_r. exact Hy.
Qed.

(** With [overwrite] set, the processes [part_id = 0 .. n-1]
    of a split into [num_parts = n] all succeed when every case has a
    file, and the cases they take, put together, are the input cases, each
    taken by exactly one process. *)
Theorem parts_cover_sources_once (isfile : string -> bool) (file_ending : string)
  (sources : list (list string)) (out : out_arg) (seg : option string)
  (num_parts : nat) (save_probabilities : bool)
  (Hn : num_parts <> 0) (Hne : forall s, In s sources -> s <> []) :
  exists runs,
    mapM (fun part_id => manage_input_and_output_lists isfile file_ending sources out seg true
                           part_id num_parts save_probabilities) (seq 0 num_parts) = Ok runs
    /\ Permutation (concat (map (fun r => fst (fst r)) runs)) sources.
Proof.
  pose (sl := fun i => map snd (filter (fun q => (i <=? fst q) && ((fst q - i) mod num_parts =? 0))
                                       (combine (seq 0 (length sources)) sources))).
  pose (cid := fun s : list string =>
                 drop_last (String.length file_ending + 5) (basename (hd EmptyString s))).
  exists (map (fun i => (sl i, resolve_outputs out (map cid (sl i)),
                         seg_files file_ending seg (map cid (sl i)))) (seq 0 num_parts)).
  split.
  - apply SlicersFacts.mapM_ok_map. intros i _.
    unfold manage_input_and_output_lists, py_slice_step.
    destruct (Nat.eqb_spec num_parts 0) as [|_]; [contradiction|]. cbn [bind].
    rewrite (SlicersFacts.mapM_ok_map (caseid file_ending) cid); [reflexivity|].
    intros s Hs. apply in_slice_step in Hs. destruct s as [|f s]; [now destruct (Hne [] Hs)|].
    reflexivity.
  - rewrite map_map. apply slices_perm, Hn.
Qed.

Lemma parts_cover_sources_once_witness :
  exists runs,
    mapM (fun part_id => manage_input_and_output_lists (fun _ => false) ".nii.gz"%string
                           [["a/x_0000.nii.gz"]; ["a/y_0000.nii.gz"]; ["a/z_0000.nii.gz"]]%string
                           (OutFolder "o"%string) None true part_id 2 false) (seq 0 2) = Ok runs
    /\ Permutation (concat (map (fun r => fst (fst r)) runs))
                   [["a/x_0000.nii.gz"]; ["a/y_0000.nii.gz"]; ["a/z_0000.nii.gz"]]%string.
Proof.
  apply parts_cover_sources_once; [discriminate|].
  intros s Hs. simpl in Hs. intuition (subst; discriminate).
Defined.

End SliceFacts.

Module CaseidFacts.
Import ManageLists PyStrFacts.
Local Open Scope string_scope.

Lemma basename_acc_no_slash (t acc : string) :
  ~ In "/"%char (list_ascii_of_string t) -> basename_acc t acc = acc ++ t.
Proof.
  revert acc. induction t as [|a t IH]; intros acc H; simpl; [now rewrite str_app_nil|].
  destruct (ascii_dec a "/") as [->|Ha]; [destruct H; now left|].
  rewrite IH by (intros H'; apply H; now right). now rewrite str_app_assoc.
Qed.

Lemma basename_acc_dir (d t acc : string) :
  basename_acc (d ++ String "/" t) acc = basename_acc t "".
Proof.
  revert acc. induction d as [|a d IH]; intros acc; simpl; [reflexivity|].
  destruct (ascii_dec a "/"); apply IH.
Qed.

Lemma str_length_app (a b : string) : String.length (a ++ b) = String.length a + String.length b.
Proof. induction a as [|x a IH]; simpl; [reflexivity|now rewrite IH]. Qed.

Lemma substring_prefix (c r : string) : substring 0 (String.length c) (c ++ r) = c.
Proof. induction c as [|x c IH]; simpl; [now destruct r|now rewrite IH]. Qed.

(** For a first file [dir/CASE_XXXX.ext] of a case, where the base name has
    no [/] and the channel suffix [_XXXX] has five characters, the case id
    is [CASE], whatever the directory. *)
Theorem caseid_of_channel_file (file_ending dir c suffix : string) (rest : list string)
  (Hslash : ~ In "/"%char (list_ascii_of_string (c ++ suffix ++ file_ending)))
  (H5 : String.length suffix = 5) :
  caseid file_ending ((dir ++ "/" ++ c ++ suffix ++ file_ending) :: rest) = Ok c.
Proof.
  unfold caseid, py_index. simpl nth_error. cbn [bind]. unfold basename, drop_last.
  rewrite basename_acc_dir, basename_acc_no_slash by exact Hslash. simpl.
  rewrite !str_length_app, H5.
  replace (String.length c + (5 + String.length file_ending) - (String.length file_ending + 5))
    with (String.length c) by lia.
  now rewrite substring_prefix.
Qed.

Lemma caseid_of_channel_file_witness :
  ~ In "/"%char (list_ascii_of_string ("BraTS_001" ++ "_0000" ++ ".nii.gz"))
  /\ String.length "_0000" = 5
  /\ caseid ".nii.gz" (("imagesTs/x" ++ "/" ++ "BraTS_001" ++ "_0000" ++ ".nii.gz")
                         :: ["imagesTs/x/BraTS_001_0001.nii.gz"]) = Ok "BraTS_001".
Proof.
  assert (H : ~ In "/"%char (list_ascii_of_string ("BraTS_001" ++ "_0000" ++ ".nii.gz")))
    by (simpl; intuition discriminate).
  split; [exact H|split; [reflexivity|]].
  exact (caseid_of_channel_file ".nii.gz" "imagesTs/x" "BraTS_001" "_0000"
           ["imagesTs/x/BraTS_001_0001.nii.gz"] H eq_refl).
Defined.

End CaseidFacts.

Module FoldNamesFacts.
Import Iterator PyStr Folds EntryPoint PyStrFacts.
Local Open Scope string_scope.

Lemma str_of_nat_not_all (n : nat) : String.eqb (str_of_nat n) "all" = false.
Proof. unfold str_of_nat. destruct (Nat.to_uint n); reflexivity. Qed.

(** The folds given on the command line as [-f] with numbers written by
    [str] and [all] become the folds [n] and ['all'], which the loader keeps
    as they are and reads from the folders [fold_n] and [fold_all]. *)
Theorem fold_arguments_to_folders (ns : list (option nat)) :
  let typed := map (fun o => match o with Some n => str_of_nat n | None => "all" end) ns in
  let folds := map (fun o => match o with Some n => FoldInt (Z.of_nat n)
                                          | None => FoldStr "all" end) ns in
  parse_folds (Some typed) = Ok folds
  /\ mapM fold_key folds = Ok folds
  /\ map fold_dir folds = map (fun s => "fold_" ++ s) typed.
Proof.
  simpl. split; [|split].
  - unfold parse_folds. induction ns as [|[n|] ns IH]; [reflexivity| |]; cbn [map mapM].
    + rewrite str_of_nat_not_all, py_int_str_of_nat. cbn [bind]. now rewrite IH.
    + rewrite String.eqb_refl. cbn [bind]. now rewrite IH.
  - induction ns as [|[n|] ns IH]; simpl; rewrite ?IH; reflexivity.
  - rewrite !map_map. apply map_ext. intros [n|]; [|reflexivity].
    simpl. unfold py_str_int. destruct (Z.ltb_spec (Z.of_nat n) 0); [lia|].
    now rewrite Nat2Z.id.
Qed.

End FoldNamesFacts.

Module ContributionBalanceFacts.
Import Contribution ContributionFacts.
Local Open Scope R_scope.

Lemma sumR_map_plus {A} (f g : A -> R) (l : list A) :
  sumR (map (fun x => f x + g x) l) = sumR (map f l) + sumR (map g l).
Proof. induction l as [|x l IH]; simpl; [ring|]. rewrite IH. ring. Qed.

Lemma sumR_map_scale {A} (f : A -> R) (c : R) (l : list A) :
  sumR (map (fun x => f x * c) l) = sumR (map f l) * c.
Proof. induction l as [|x l IH]; simpl; [ring|]. rewrite IH. ring. Qed.

Lemma sumR_map_opp {A} (f : A -> R) (l : list A) :
  sumR (map (fun x => - f x) l) = - sumR (map f l).
Proof. induction l as [|x l IH]; simpl; [ring|]. rewrite IH. ring. Qed.

Lemma sumR_swap (f : nat -> nat -> R) (l1 l2 : list nat) :
  sumR (map (fun i => sumR (map (fun j => f i j) l2)) l1)
  = sumR (map (fun j => sumR (map (fun i => f i j) l1)) l2).
Proof.
  induction l1 as [|i l1 IH]; simpl.
  - induction l2 as [|j l2 IH2]; simpl; [reflexivity|]. rewrite <- IH2. ring.
  - rewrite IH. now rewrite (sumR_map_plus (fun j => f i j)).
Qed.

(** Whatever the table, the contribution scores [metric_ct] and
    [metric_cd] of a run balance: over all channels they sum to 0. *)
Theorem contribution_scores_balance (N : nat) (table : list (list (list R))) :
  match synthesis_contribution N table with
  | Ok rows => sumR (map (fun r => snd (fst r) + snd r) rows) = 0
  | Err _ => True
  end.
Proof.
  unfold synthesis_contribution. destruct (build_A N table) as [A|e]; cbn [bind]; [|exact I].
  unfold sbsc_of. rewrite map_map. cbn [fst snd].
  rewrite (map_ext _ (fun i => (sumR (map (fun j => getA A i j) (seq 0 N))
                                + - sumR (map (fun j => getA A j i) (seq 0 N))) * / INR N)).
  - rewrite sumR_map_scale, sumR_map_plus.
    rewrite (sumR_swap (fun i j => getA A i j)).
    rewrite (sumR_map_opp (fun i => sumR (map (fun j => getA A j i) (seq 0 N)))). ring.
  - intros i. rewrite fold_left_plus, fold_left_minus. unfold Rdiv.
    replace (map (getA A i) (seq 0 N)) with (map (fun j => getA A i j) (seq 0 N)) by reflexivity.
    ring.
Qed.

End ContributionBalanceFacts.

Module PsnrTableFacts.
Import Iterator ContributionFacts.

Section Table.
Variable psnr_of : record -> nat -> nat -> R.

Lemma existsb_eqb_In (x : nat) (l : list nat) : existsb (Nat.eqb x) l = true <-> In x l.
Proof.
  rewrite existsb_exists. split.
  - intros (y & Hy & E). apply Nat.eqb_eq in E. now subst.
  - intros H. exists x. split; [exact H|apply Nat.eqb_refl].
Qed.

Lemma append_psnr_cell (st : pstate) (tbl : list (list (list R))) (N s0 t0 : nat) (v : R) :
  one2one_translate_psnr st = Some tbl ->
  length tbl = N -> (forall s, s < N -> length (nth s tbl []) = N) ->
  s0 < N -> t0 < N ->
  exists st', append_psnr st s0 t0 v = Ok st'
    /\ exists tbl', one2one_translate_psnr st' = Some tbl'
    /\ length tbl' = N /\ (forall s, s < N -> length (nth s tbl' []) = N)
    /\ forall s t, nth t (nth s tbl' []) []
                   = nth t (nth s tbl []) [] ++ (if (s =? s0) && (t =? t0) then [v] else []).
Proof.
  intros Htbl Hlen Hrow Hs0 Ht0. unfold append_psnr, get_psnr. rewrite Htbl. cbn [bind].
  unfold py_index. rewrite (nth_error_nth' tbl []) by lia. cbn [bind].
  rewrite (nth_error_nth' (nth s0 tbl []) []) by (rewrite Hrow; lia). cbn [bind].
  eexists. split; [reflexivity|]. eexists. split; [reflexivity|]. split; [|split].
  - now rewrite length_upd.
  - intros s Hs. rewrite nth_upd by lia. destruct (s =? s0); [rewrite length_upd|]; auto.
  - intros s t. rewrite nth_upd by lia. destruct (Nat.eqb_spec s s0) as [->|Hne]; cbn [andb].
    + rewrite nth_upd by (rewrite Hrow; lia).
      destruct (Nat.eqb_spec t t0) as [->|_]; [reflexivity|]. now rewrite app_nil_r.
    + now rewrite app_nil_r.
Qed.

Lemma source_step_table (rc : record) (o : string) (tgt : nat) (st st1 : pstate) (i s0 : nat) :
  ofile rc = Some o ->
  (if existsb (Nat.eqb tgt) (available_channel rc)
   then append_psnr st s0 tgt (psnr_of rc s0 tgt) else Ok st) = Ok st1 ->
  exists st', source_step psnr_of rc tgt st (i, s0) = Ok st'
              /\ one2one_translate_psnr st' = one2one_translate_psnr st1.
Proof.
  intros Hfile H1. unfold source_step. rewrite H1. cbn [bind]. rewrite Hfile. cbn [py_join bind].
  destruct (Nat.eqb tgt 0), (Nat.eqb i _), (existsb _ _); cbn [bind];
    (eexists; split; [reflexivity|reflexivity]).
Qed.

Lemma source_loop_table (rc : record) (o : string) (tgt N : nat) (L : list (nat * nat)) :
  ofile rc = Some o ->
  (existsb (Nat.eqb tgt) (available_channel rc) = true -> tgt < N) ->
  Forall (fun p => snd p < N) L -> NoDup (map snd L) ->
  forall st tbl, one2one_translate_psnr st = Some tbl ->
  length tbl = N -> (forall s, s < N -> length (nth s tbl []) = N) ->
  exists st', foldM (source_step psnr_of rc tgt) L st = Ok st'
    /\ exists tbl', one2one_translate_psnr st' = Some tbl'
    /\ length tbl' = N /\ (forall s, s < N -> length (nth s tbl' []) = N)
    /\ forall s t, nth t (nth s tbl' []) []
                   = nth t (nth s tbl []) []
                     ++ (if existsb (Nat.eqb tgt) (available_channel rc)
                            && existsb (Nat.eqb s) (map snd L) && (t =? tgt)
                         then [psnr_of rc s t] else []).
Proof.
  intros Hfile Htgt. induction L as [|[i s0] L IH]; intros HL Hnd st tbl Htbl Hlen Hrow.
  - exists st. split; [reflexivity|]. exists tbl. repeat split; auto.
    intros s t. rewrite andb_false_r. cbn. now rewrite app_nil_r.
  - apply Forall_cons_iff in HL as [Hs0 HL']. cbn [map snd] in Hnd, Hs0.
    apply NoDup_cons_iff in Hnd as [Hnin Hnd'].
    destruct (existsb (Nat.eqb tgt) (available_channel rc)) eqn:Ha.
    + destruct (append_psnr_cell st tbl N s0 tgt (psnr_of rc s0 tgt) Htbl Hlen Hrow Hs0
                  (Htgt eq_refl)) as (st1 & H1 & tbl1 & Htbl1 & Hlen1 & Hrow1 & Hcell1).
      destruct (source_step_table rc o tgt st st1 i s0 Hfile) as (st2 & H2 & Htbl2);
        [rewrite Ha; exact H1|].
      rewrite Htbl1 in Htbl2.
      destruct (IH HL' Hnd' st2 tbl1 Htbl2 Hlen1 Hrow1)
        as (st' & H3 & tbl' & Htbl' & Hlen' & Hrow' & Hcell').
      exists st'. cbn [foldM]. rewrite H2. cbn [bind]. split; [exact H3|].
      exists tbl'. repeat split; auto. intros s t. rewrite Hcell', Hcell1, <- app_assoc.
      f_equal. cbn [map existsb andb snd].
      destruct (Nat.eqb_spec s s0) as [->|Hne].
      * assert (E : existsb (Nat.eqb s0) (map snd L) = false)
          by (destruct (existsb (Nat.eqb s0) (map snd L)) eqn:E; [apply existsb_eqb_In in E|];
              tauto).
        rewrite E. destruct (Nat.eqb_spec t tgt) as [->|_]; reflexivity.
      * reflexivity.
    + destruct (source_step_table rc o tgt st st i s0 Hfile) as (st2 & H2 & Htbl2);
        [rewrite Ha; reflexivity|].
      rewrite Htbl in Htbl2.
      destruct (IH HL' Hnd' st2 tbl Htbl2 Hlen Hrow)
        as (st' & H3 & tbl' & Htbl' & Hlen' & Hrow' & Hcell').
      exists st'. cbn [foldM]. rewrite H2. cbn [bind]. split; [exact H3|].
      exists tbl'. repeat split; auto.
Qed.

Lemma target_step_sources (rc : record) (o : string) (st : pstate) (tgt : nat) :
  ofile rc = Some o ->
  exists st0, one2one_translate_psnr st0 = one2one_translate_psnr st
    /\ target_step psnr_of rc st tgt
       = foldM (source_step psnr_of rc tgt)
               (combine (seq 0 (length (available_channel rc))) (available_channel rc)) st0.
Proof.
  intros Hfile. unfold target_step. rewrite Hfile. cbn [py_join bind].
  eexists. split; [|reflexivity]. reflexivity.
Qed.

Lemma target_loop_table (rc : record) (o : string) (N : nat) :
  ofile rc = Some o ->
  Forall (fun c => c < N) (available_channel rc) -> NoDup (available_channel rc) ->
  forall k st tbl, one2one_translate_psnr st = Some tbl ->
  length tbl = N -> (forall s, s < N -> length (nth s tbl []) = N) ->
  exists st', foldM (target_step psnr_of rc) (seq 0 k) st = Ok st'
    /\ exists tbl', one2one_translate_psnr st' = Some tbl'
    /\ length tbl' = N /\ (forall s, s < N -> length (nth s tbl' []) = N)
    /\ forall s t, nth t (nth s tbl' []) []
                   = nth t (nth s tbl []) []
                     ++ (if existsb (Nat.eqb s) (available_channel rc)
                            && existsb (Nat.eqb t) (available_channel rc) && (t <? k)
                         then [psnr_of rc s t] else []).
Proof.
  intros Hfile Hav Hnd. induction k as [|k IH]; intros st tbl Htbl Hlen Hrow.
  - exists st. split; [reflexivity|]. exists tbl. repeat split; auto.
    intros s t. rewrite andb_false_r. cbn. now rewrite app_nil_r.
  - destruct (IH st tbl Htbl Hlen Hrow) as (stk & Hk & tblk & Htblk & Hlenk & Hrowk & Hcellk).
    destruct (target_step_sources rc o stk k Hfile) as (st0 & Htbl0 & Hstep).
    rewrite Htblk in Htbl0.
    pose (avail := available_channel rc).
    destruct (source_loop_table rc o k N (combine (seq 0 (length avail)) avail) Hfile)
      with (st := st0) (tbl := tblk)
      as (st' & H' & tbl' & Htbl' & Hlen' & Hrow' & Hcell');
      [| | |exact Htbl0|exact Hlenk|exact Hrowk|].
    + intros Hk'. apply existsb_eqb_In in Hk'. rewrite Forall_forall in Hav. now apply Hav.
    + apply Forall_forall. intros [i c] Hc. apply in_combine_r in Hc.
      rewrite Forall_forall in Hav. now apply Hav.
    + unfold avail. rewrite SliceFacts.map_snd_combine_seq. exact Hnd.
    + exists st'. split.
      * rewrite seq_S, foldM_app, Hk. cbn [bind foldM]. unfold avail in H'. rewrite Nat.add_0_l, Hstep, H'. reflexivity.
      * exists tbl'. repeat split; auto. intros s t. rewrite Hcell', Hcellk, <- app_assoc.
        f_equal. unfold avail. rewrite SliceFacts.map_snd_combine_seq.
        destruct (existsb (Nat.eqb s) (available_channel rc)); cbn [andb];
          [|now destruct (existsb (Nat.eqb k) _)].
        destruct (lt_eq_lt_dec t k) as [[Hlt| ->]|Hgt].
        -- replace (t <? k) with true by (symmetry; apply Nat.ltb_lt; lia).
           replace (t <? S k) with true by (symmetry; apply Nat.ltb_lt; lia).
           replace (t =? k) with false by (symmetry; apply Nat.eqb_neq; lia).
           rewrite andb_false_r. destruct (existsb (Nat.eqb t) _); reflexivity.
        -- rewrite Nat.ltb_irrefl, Nat.eqb_refl.
           replace (k <? S k) with true by (symmetry; apply Nat.ltb_lt; lia).
           destruct (existsb (Nat.eqb k) _); reflexivity.
        -- replace (t <? k) with false by (symmetry; apply Nat.ltb_ge; lia).
           replace (t <? S k) with false by (symmetry; apply Nat.ltb_ge; lia).
           replace (t =? k) with false by (symmetry; apply Nat.eqb_neq; lia).
           rewrite !andb_false_r. reflexivity.
Qed.

End Table.

(** For a record with an output file, available channels that are distinct
    and below [N], and an [N x N] contribution table, when the loops of one
    record complete (the network predictions they run may raise; those are
    outside this statement), they have appended exactly one PSNR, that of
    the pair, to the list of every pair [(src, tgt)] of available channels
    with [tgt < num_channel]; every other list is left as it was. *)
Theorem record_appends_one_psnr_per_pair (psnr_of : record -> nat -> nat -> R)
  (st : pstate) (rc : record) (o : string) (tbl : list (list (list R))) (N : nat)
  (st' : pstate)
  (Hfile : ofile rc = Some o) (Htbl : one2one_translate_psnr st = Some tbl)
  (Hlen : length tbl = N) (Hrow : forall s, s < N -> length (nth s tbl []) = N)
  (Hav : Forall (fun c => c < N) (available_channel rc))
  (Hnd : NoDup (available_channel rc))
  (Hrun : process_record psnr_of st rc = Ok st') :
  exists tbl', one2one_translate_psnr st' = Some tbl'
    /\ length tbl' = N /\ (forall s, s < N -> length (nth s tbl' []) = N)
    /\ forall s t, nth t (nth s tbl' []) []
                   = nth t (nth s tbl []) []
                     ++ (if existsb (Nat.eqb s) (available_channel rc)
                            && existsb (Nat.eqb t) (available_channel rc)
                            && (t <? num_channel rc)
                         then [psnr_of rc s t] else []).
Proof.
  destruct (target_loop_table psnr_of rc o N Hfile Hav Hnd (num_channel rc) st tbl Htbl Hlen Hrow)
    as [st'' [H1 H2]].
  unfold process_record in Hrun. rewrite H1 in Hrun. injection Hrun as <-. exact H2.
Qed.

Lemma record_appends_one_psnr_per_pair_witness :
  let st := {| one2one_translate_psnr := Some [[[]; []]; [[]; []]]; jobs := [] |} in
  let rc := {| ofile := Some "out/case1"%string; num_channel := 2; available_channel := [1; 0] |} in
  exists st', process_record (fun _ s t => INR (s + t)) st rc = Ok st'
    /\ exists tbl', one2one_translate_psnr st' = Some tbl'
    /\ length tbl' = 2 /\ (forall s, s < 2 -> length (nth s tbl' []) = 2)
    /\ forall s t, nth t (nth s tbl' []) []
                   = nth t (nth s [[[]; []]; [[]; []]] []) []
                     ++ (if existsb (Nat.eqb s) [1; 0] && existsb (Nat.eqb t) [1; 0] && (t <? 2)
                         then [INR (s + t)] else []).
Proof.
  intros st rc. eexists. split; [reflexivity|].
  apply (record_appends_one_psnr_per_pair (fun _ s t => INR (s + t)) st rc "out/case1"%string
           [[[]; []]; [[]; []]] 2 _ eq_refl eq_refl eq_refl).
  - intros s Hs. destruct s as [|[|s]]; [reflexivity|reflexivity|lia].
  - repeat constructor.
  - repeat constructor; simpl; intuition lia.
  - reflexivity.
Defined.

End PsnrTableFacts.
